(** * HubspotReports: margin aggregation, period orchestration, row allocation

    A shallow embedding of the two report scripts of the repository,

      - [FinancialYearMargin.py]       (module [FinancialYear] below) and
      - [GithubVersionFutureMargin.py] (module [AllTime] below),

    together with the properties of their aggregation loop, their
    orchestration loops and the persisted row cursor.

    Conventions of the embedding.

      - Python [float]s are exact rationals ([Qc]); rounding, infinities and
        NaN are outside the model.  What is kept is what the control flow
        depends on: [x / 0.0] raises [ZeroDivisionError], [0.0] is falsy.
      - A JSON property value is [None], a string, an integer or a float
        ([pyval]).  [dict.get] on a missing key and a JSON [null] both give
        [None].
      - An exception is an outcome ([Raise e]); nothing in the scripts
        catches one except [increment_file_number], which re-raises.  A
        request that the CRM refuses is the empty answer, as [find_deals]
        makes it; exceptions of the network are outside the model.
      - Console output ([print]) is not recorded.
      - The CRM, the sheet and the counter file are the outside world: the
        CRM is an oracle that answers the n-th HTTP call, the sheet is a
        finite map of cells, the counter file is its text. *)

From Stdlib Require Import ZArith QArith Qcanon Qfield.
From Stdlib Require Import Ascii String DecimalString DecimalPos DecimalZ.
From stdpp Require Import base decidable option list strings gmap.

Local Open Scope Qc_scope.

(** ** The fragment of the Python runtime the scripts rely on *)

Module Py.

Inductive exn :=
| TypeError | ValueError | ZeroDivisionError | UnboundLocalError | IOError.

Inductive result (A : Type) :=
| Ok (a : A)
| Raise (e : exn).
Arguments Ok {A} a.
Arguments Raise {A} e.

(** A value as it comes out of [response.json()] or is computed later. *)
Inductive pyval :=
| VNone
| VStr (s : string)
| VInt (z : Z)
| VFloat (q : Qc).

(** The text accepted by [float()] and [int()], and the text printed by
    [str()] on an integer. *)
Class Syntax := {
  float_of_str : string → option Qc;
  int_of_str : string → option Z;
  str_of_int : Z → string
}.

(** What the scripts need of that syntax: the empty string is not a
    number, and [int(str(n)) == n]. *)
Class LawfulSyntax `{Syntax} : Prop := {
  float_of_str_empty : float_of_str "" = None;
  int_of_str_of_int : ∀ z, int_of_str (str_of_int z) = Some z
}.

(** Truth value of an object in [if x:]. *)
Definition truthy (v : pyval) : bool :=
  match v with
  | VNone => false
  | VStr s => negb (String.eqb s "")
  | VInt z => negb (Z.eqb z 0)
  | VFloat q => negb (Qc_eq_bool q 0)
  end.

(** [v == s] for a string literal [s]. *)
Definition eq_str (v : pyval) (s : string) : bool :=
  match v with
  | VStr t => String.eqb t s
  | _ => false
  end.

(** [float(v)] *)
Definition float `{Syntax} (v : pyval) : result Qc :=
  match v with
  | VNone => Raise TypeError
  | VStr s => match float_of_str s with
              | Some q => Ok q
              | None => Raise ValueError
              end
  | VInt z => Ok (Q2Qc (inject_Z z))
  | VFloat q => Ok q
  end.

(** [int(s)] on a string. *)
Definition int `{Syntax} (s : string) : result Z :=
  match int_of_str s with
  | Some z => Ok z
  | None => Raise ValueError
  end.

(** [len(l)] *)
Definition len {A} (l : list A) : Z := Z.of_nat (length l).

(** Reading a local variable that an assignment may not have reached. *)
Definition local {A} (x : option A) : result A :=
  match x with
  | Some a => Ok a
  | None => Raise UnboundLocalError
  end.

(** *** Arithmetic, with a record of the divisions performed *)

Inductive arith :=
| Convert (net_revenue rate : Qc)      (* float(net_revenue) / rate *)
| Margin (net_revenue amounts : Qc).   (* num_net_revenue / num_amounts *)

(** A computation that may raise, with the divisions it evaluated. *)
Definition traced (A : Type) : Type := list arith * result A.

Definition lift {A} (r : result A) : traced A := ([], r).

#[export] Instance traced_ret : MRet traced := λ A a, ([], Ok a).

#[export] Instance traced_bind : MBind traced := λ A B f m,
  match m with
  | (t, Ok a) => let '(t', r) := f a in (t ++ t', r)
  | (t, Raise e) => (t, Raise e)
  end.

Definition outcome {A} (m : traced A) : result A := m.2.
Definition divisions {A} (m : traced A) : list arith := m.1.

(** [x / y] on floats: the attempt is recorded, a zero divisor raises. *)
Definition div (tag : Qc → Qc → arith) (x y : Qc) : traced Qc :=
  ([tag x y], if Qc_eq_bool y 0 then Raise ZeroDivisionError else Ok (x / y)).

(** *** Programs that act on the outside world [W] *)

Definition io (W A : Type) : Type := W → result A * W.

#[export] Instance io_ret {W} : MRet (io W) := λ A a w, (Ok a, w).

#[export] Instance io_bind {W} : MBind (io W) := λ A B f m w,
  match m w with
  | (Ok a, w') => f a w'
  | (Raise e, w') => (Raise e, w')
  end.

(** [for x in l: s = body(s, x)] *)
Fixpoint for_each `{MRet M, MBind M} {S A}
    (body : S → A → M S) (l : list A) (s : S) : M S :=
  match l with
  | [] => mret s
  | x :: l => s' ← body s x; for_each body l s'
  end.

(** *** A deal as returned by the CRM search endpoint *)

Record deal := { properties : gmap string pyval }.

(** [deal['properties'].get(key)] *)
Definition get (d : deal) (key : string) : pyval :=
  default VNone (properties d !! key).

(** *** The loop of [extract_data]

    The two scripts have the same loop body up to the name of the amount
    property; [GithubVersionFutureMargin.py] adds the [cost] assignment,
    see [AllTime.extract_step]. *)

(** The local variables of [extract_data]; [margin] is unbound until the
    first iteration has assigned it. *)
Record locals := {
  idcal : list pyval;
  num_amounts : Qc;
  num_net_revenue : Qc;
  margin : option Qc
}.

Definition initially : locals :=
  {| idcal := []; num_amounts := 0; num_net_revenue := 0; margin := None |}.

Definition extract_step `{Syntax} (amount_property : string)
    (rate : option Qc) (st : locals) (d : deal) : traced locals :=
  let amount := get d amount_property in
  let id := get d "hs_object_id" in
  let net_revenue := get d "net_revenue" in
  let currency := get d "deal_currency_code" in
  let idcal := idcal st ++ [id] in
  net_revenue ←
    (if eq_str currency "NZD" then
       match rate with
       | Some rate =>
           x ← lift (float net_revenue);
           net_revenue_aud ← div Convert x rate;
           mret (VFloat net_revenue_aud)
       | None => mret net_revenue
       end
     else mret net_revenue);
  a ← lift (float amount);
  let num_amounts := num_amounts st + a in
  n ← lift (if truthy net_revenue then float net_revenue else float amount);
  let num_net_revenue := num_net_revenue st + n in
  q ← div Margin num_net_revenue num_amounts;
  mret {| idcal := idcal; num_amounts := num_amounts;
          num_net_revenue := num_net_revenue; margin := Some (q * Q2Qc 100) |}.

End Py.

Export Py.

(** ** A concrete number syntax: plain decimal literals *)

Module Decimal.

Definition digit (c : ascii) : option Z :=
  let n := Ascii.N_of_ascii c in
  if ((48 <=? n) && (n <=? 57))%N then Some (Z.of_N n - 48)%Z else None.

(** Digits read left to right: value so far, number of digits, rest. *)
Fixpoint digits (s : string) (acc : Z) (len : nat) : Z * nat * string :=
  match s with
  | String c rest =>
      match digit c with
      | Some d => digits rest (10 * acc + d)%Z (S len)
      | None => (acc, len, s)
      end
  | EmptyString => (acc, len, s)
  end.

(** [digits [. digits]] with at least one digit, no sign. *)
Definition unsigned (s : string) : option Qc :=
  match digits s 0%Z 0 with
  | (i, ni, EmptyString) =>
      if ni is 0 then None else Some (Q2Qc (inject_Z i))
  | (i, ni, String "."%char frac) =>
      match digits frac i ni with
      | (n, len, EmptyString) =>
          if len is 0 then None
          else Some (Q2Qc (Qmake n (Z.to_pos (10 ^ Z.of_nat (len - ni)))))
      | _ => None
      end
  | _ => None
  end.

Definition parse_float (s : string) : option Qc :=
  match s with
  | String "-"%char rest => Qcopp <$> unsigned rest
  | String "+"%char rest => unsigned rest
  | _ => unsigned s
  end.

Definition parse_int (s : string) : option Z :=
  Z.of_int <$> NilZero.int_of_string s.

Definition print_int (z : Z) : string :=
  NilZero.string_of_int (Z.to_int z).

#[global] Instance syntax : Py.Syntax := {|
  Py.float_of_str := parse_float;
  Py.int_of_str := parse_int;
  Py.str_of_int := print_int
|}.

End Decimal.

(** ** The fragment of [datetime] the scripts rely on *)

Module Datetime.

(** A calendar date; the time of day plays no part in the scripts. *)
Record date := { year : Z; month : Z; day : Z }.

Definition is_leap (y : Z) : bool :=
  ((y mod 4 =? 0) && (negb (y mod 100 =? 0) || (y mod 400 =? 0)))%Z.

Definition days_in_month (y m : Z) : Z :=
  if (m =? 2)%Z then (if is_leap y then 29 else 28)%Z
  else if ((m =? 4) || (m =? 6) || (m =? 9) || (m =? 11))%Z then 30%Z
  else 31%Z.

(** The dates [datetime] represents: years 1 to 9999. *)
Definition valid (d : date) : bool :=
  ((1 <=? year d) && (year d <=? 9999) && (1 <=? month d) && (month d <=? 12)
   && (1 <=? day d) && (day d <=? days_in_month (year d) (month d)))%Z.

Inductive error :=
| ValueError       (* year, month or day out of range *)
| OverflowError.   (* date value out of range *)

(** A computation on dates that may raise. *)
#[global] Instance error_bind : MBind (sum error) := λ A B f m,
  match m with
  | inr a => f a
  | inl e => inl e
  end.

(** [datetime(y, m, d)] *)
Definition datetime (y m d : Z) : error + date :=
  let date := {| year := y; month := m; day := d |} in
  if valid date then inr date else inl ValueError.

(** [d - timedelta(days=1)] *)
Definition minus_one_day (d : date) : error + date :=
  if (1 <? day d)%Z then
    inr {| year := year d; month := month d; day := (day d - 1)%Z |}
  else if (1 <? month d)%Z then
    inr {| year := year d; month := (month d - 1)%Z;
           day := days_in_month (year d) (month d - 1) |}
  else if (1 <? year d)%Z then
    inr {| year := (year d - 1)%Z; month := 12; day := 31 |}
  else inl OverflowError.

(** [d1 <= d2] *)
Definition le (d1 d2 : date) : Prop :=
  (year d1 < year d2 ∨
   (year d1 = year d2 ∧
    (month d1 < month d2 ∨ (month d1 = month d2 ∧ day d1 ≤ day d2))))%Z.



End Datetime.

(** ** FinancialYearMargin.py *)

Module FinancialYear.

(** [HubSpotAPI.extract_data]: the margin after the last deal and the
    number of deals.  With no deal, [margin] is read before any
    assignment. *)
Definition extract_data `{Syntax} (deals : list deal) (rate : option Qc)
    : traced (Qc * nat) :=
  st ← for_each (extract_step "amount" rate) deals initially;
  margin ← lift (local (margin st));
  mret (margin, length (idcal st)).

(** The search request built by [find_deals]. *)
Record query := {
  start_date : string;
  end_date : string;
  deal_stage : list string;
  page : string
}.

(** The text written to a cell: the formatted pair or the plain ["NA"]. *)
Inductive report :=
| Formatted (margin total : pyval)   (* f"{round(margin, 2)}% | deals: {total}" *)
| Na.                                (* "NA" *)

Inductive event :=
| Post (q : query)
| Arith (a : arith)
| UpdateAcell (column row : Z) (value : report).

(** The CRM answers the n-th request of the run (a failed request counts
    as the empty list, as in [find_deals]); [log] is what the run did. *)
Record world := {
  hubspot : nat → query → list deal;
  calls : nat;
  log : list event
}.

(** The world after the run has done [es]. *)
Definition record (es : list event) (w : world) : world :=
  {| hubspot := hubspot w; calls := calls w; log := log w ++ es |}.

Definition emit (es : list event) : io world unit := λ w,
  (Ok (), record es w).

(** A computation of the aggregation loop run inside the script. *)
Definition run {A} (m : traced A) : io world A := λ w,
  (outcome m, record (Arith <$> divisions m) w).

(** [HubSpotAPI.find_deals] *)
Definition find_deals (start_date end_date : string) (deal_stage : list string)
    (page : string) : io world (list deal) := λ w,
  let data := {| start_date := start_date; end_date := end_date;
                 deal_stage := deal_stage; page := page |} in
  (Ok (hubspot w (calls w) data),
   {| hubspot := hubspot w; calls := S (calls w); log := log w ++ [Post data] |}).

(** The two requests of one cell of the report. *)
Definition cell_requests (start end_ : string) (stage_category : list string)
    : list event :=
  [Post {| start_date := start; end_date := end_;
           deal_stage := stage_category; page := "limit" |};
   Post {| start_date := start; end_date := end_;
           deal_stage := stage_category; page := "after" |}].

(** The body of the inner loop of [alltime]. *)
Definition alltime_cell `{Syntax} (rate : option Qc) (start end_ : string)
    (lists : list pyval * list pyval) (stage_category : list string)
    : io world (list pyval * list pyval) :=
  let '(margins, totals) := lists in
  deals ← find_deals start end_ stage_category "limit";
  deals_after ← find_deals start end_ stage_category "after";
  let all_deals := deals ++ deals_after in
  match all_deals with
  | _ :: _ =>
      '(margin, total) ← run (extract_data all_deals rate);
      mret (margins ++ [VFloat margin], totals ++ [VInt (Z.of_nat total)])
  | [] =>
      mret (margins ++ [VStr "NA"], totals ++ [VStr "NA"])
  end.

(** [HubSpotAPI.alltime] *)
Definition alltime `{Syntax} (deal_stage : list (list string))
    (quarterstart quarterend financialstart financialend : string)
    (rate : option Qc) : io world (list pyval * list pyval) :=
  let quarters := [("Q1", quarterstart, quarterend);
                   ("Financial Year", financialstart, financialend)] in
  for_each (λ lists '(quarter, start, end_),
              for_each (alltime_cell rate start end_) deal_stage lists)
           quarters ([], []).

(** The local variables of the writing loop of [main]. *)
Record cursor := { row : Z; col : Z; values_entered : Z }.

(** The body of the writing loop of [main]; the column letter
    [chr(65 + col)] is kept as its code point. *)
Definition write_result (c : cursor) (result : pyval * pyval) : io world cursor :=
  let '(margin, total) := result in
  let excel_col := (65 + col c)%Z in
  let report := if negb (eq_str margin "NA") then Formatted margin total else Na in
  _ ← emit [UpdateAcell excel_col (row c) report];
  let values_entered := (values_entered c + 1)%Z in
  let '(col, row) :=
    if (values_entered mod 3 =? 0)%Z then ((col c + 1)%Z, 1%Z) else (col c, row c) in
  mret {| row := (row + 1)%Z; col := col; values_entered := values_entered |}.

(** [main], from the rate and the dates it has obtained. *)
Definition main `{Syntax} (rate : option Qc)
    (current_quarter current_financial_year : string * string) : io world unit :=
  let all := ["123633772"; "848f19bf-930a-4f0f-bbc5-8d4b69d2cc3a"] in
  let sales := ["123633772"] in
  let renewels := ["848f19bf-930a-4f0f-bbc5-8d4b69d2cc3a"] in
  '(margins, totals) ←
    alltime [all; sales; renewels] current_quarter.1 current_quarter.2
            current_financial_year.1 current_financial_year.2 rate;
  _ ← for_each write_result (zip margins totals)
        {| row := 2; col := 1; values_entered := 0 |};
  mret ().

(** The dates of the quarter of [today]: its first day, and the day before
    the first day of the next quarter. *)
Definition current_quarter (today : Datetime.date)
    : Datetime.error + (Datetime.date * Datetime.date) :=
  let quarter_start := ((Datetime.month today - 1) / 3 * 3 + 1)%Z in
  start_date ← Datetime.datetime (Datetime.year today) quarter_start 1;
  next_quarter_start ←
    (if (quarter_start <? 10)%Z
     then Datetime.datetime (Datetime.year today) (quarter_start + 3) 1
     else Datetime.datetime (Datetime.year today + 1) 1 1);
  end_date ← Datetime.minus_one_day next_quarter_start;
  inr (start_date, end_date).


(** The dates of the financial year of [today], from July to June. *)
Definition current_financial_year (today : Datetime.date)
    : Datetime.error + (Datetime.date * Datetime.date) :=
  start_date ←
    (if (7 <=? Datetime.month today)%Z
     then Datetime.datetime (Datetime.year today) 7 1
     else Datetime.datetime (Datetime.year today - 1) 7 1);
  end_date ←
    (if (7 <=? Datetime.month today)%Z
     then Datetime.datetime (Datetime.year today + 1) 6 30
     else Datetime.datetime (Datetime.year today) 6 30);
  inr (start_date, end_date).


End FinancialYear.

(** ** GithubVersionFutureMargin.py *)

Module AllTime.

(** The loop body of [extract_data]: the shared body, then [cost]. *)
Definition extract_step `{Syntax} (rate : option Qc)
    (st : locals * option Qc) (d : deal) : traced (locals * option Qc) :=
  st' ← Py.extract_step "amount_in_home_currency" rate st.1 d;
  let cost := num_amounts st' - num_net_revenue st' in
  mret (st', Some cost).

(** [HubSpotAPI.extract_data] *)
Definition extract_data `{Syntax} (deals : list deal) (rate : option Qc)
    : traced (Qc * nat * Qc * Qc * Qc) :=
  '(st, cost) ← for_each (extract_step rate) deals (initially, None);
  margin ← lift (local (margin st));
  cost ← lift (local cost);
  mret (margin, length (idcal st), num_amounts st, num_net_revenue st, cost).

(** The worksheet as the allocator sees it: its extent and the cells that
    hold a value; a cell without an entry has value [None]. *)
Record worksheet := {
  row_count : Z;
  cells : gmap (Z * Z) string
}.

Inductive event :=
| Post (page : string) (length : Z)
| Arith (a : arith)
| FileRead
| FileWrite (text : string)
| CellRead (row col : Z).

(** [rownumber_txt] is the text of rownumber.txt, [None] when the file
    cannot be opened. *)
Record world := {
  hubspot : nat → string → Z → list deal;
  calls : nat;
  rownumber_txt : option string;
  log : list event
}.

(** The world after the run has done [es]. *)
Definition record (es : list event) (w : world) : world :=
  {| hubspot := hubspot w; calls := calls w;
     rownumber_txt := rownumber_txt w; log := log w ++ es |}.

Definition emit (es : list event) : io world unit := λ w,
  (Ok (), record es w).

Definition run {A} (m : traced A) : io world A := λ w,
  (outcome m, record (Arith <$> divisions m) w).

(** [HubSpotAPI.find_deals] *)
Definition find_deals (page : string) (length : Z) : io world (list deal) := λ w,
  (Ok (hubspot w (calls w) page length),
   {| hubspot := hubspot w; calls := S (calls w);
      rownumber_txt := rownumber_txt w; log := log w ++ [Post page length] |}).

(** [open(filename, "r")] then [file.read()] *)
Definition read_file : io world string := λ w,
  match rownumber_txt w with
  | Some text => (Ok text, record [FileRead] w)
  | None => (Raise IOError, w)
  end.

(** [open(filename, "w")] then [file.write(text)] *)
Definition write_file (text : string) : io world unit := λ w,
  (Ok (), {| hubspot := hubspot w; calls := calls w;
             rownumber_txt := Some text; log := log w ++ [FileWrite text] |}).

(** [HubSpotAPI.increment_file_number]; the [IOError] handler re-raises
    an [IOError], a [ValueError] of [int] passes through it. *)
Definition increment_file_number `{Syntax} : io world Z :=
  number_str ← read_file;
  number ← (λ w, (int number_str, w));
  let previousnumber := number in
  let number := (number + 1)%Z in
  _ ← write_file (str_of_int number);
  mret previousnumber.

(** [worksheet.cell(row=row, col=col).value] *)
Definition cell (ws : worksheet) (row col : Z) : io world (option string) :=
  _ ← emit [CellRead row col];
  mret (cells ws !! (row, col)).

(** The [for row in range(...)] loop of [get_next_open_row]. *)
Fixpoint scan (ws : worksheet) (rows : list Z) : io world (option Z) :=
  match rows with
  | [] => mret None
  | row :: rows =>
      value ← cell ws row 1;
      match value with
      | None => mret (Some row)
      | Some _ => scan ws rows
      end
  end.

(** [range(a, b)] *)
Definition range (a b : Z) : list Z := seqZ a (b - a).

(** [HubSpotAPI.get_next_open_row] *)
Definition get_next_open_row `{Syntax} (ws : worksheet) : io world (option Z) :=
  currentrow ← increment_file_number;
  scan ws (range currentrow (row_count ws + 1)).

(** The [while length % 100 == 0] loop of [main]; [None] when [fuel]
    iterations did not end it. *)
Fixpoint fetch_more (fuel : nat) (answer : list deal) (length : Z)
    : io world (option (list deal)) :=
  if (length mod 100 =? 0)%Z then
    match fuel with
    | O => mret None
    | S fuel =>
        more ← find_deals "after" length;
        let answer := answer ++ more in
        fetch_more fuel answer (len answer)
    end
  else mret (Some answer).

(** The retrieval of the deals at the start of [main]. *)
Definition main_fetch (fuel : nat) : io world (option (list deal)) :=
  answer ← find_deals "limit" 100;
  fetch_more fuel answer (len answer).

(** [HubSpotAPI.write_data_to_sheet]: the cells it updates, in order, each
    with its label (the code point of the column letter [chr(65 + col)],
    then the row) and its value. *)
Definition write_data_to_sheet {V} (data : list V) (row : Z)
    : list (Z * Z * V) :=
  (foldl (λ '(col, updates) value,
            let excel_col := (65 + col)%Z in
            ((col + 1)%Z, updates ++ [(excel_col, row, value)]))
         (0%Z, []) data).2.

(** A value of the row [main] writes. *)
Inductive value :=
| Today                   (* str(date.today()) *)
| Percent (margin : Qc)   (* f"{round(margin, 2)}%" *)
| Count (dealcount : nat)
| Rounded (x : Qc).       (* round(x, 2) *)

(** [main], from the rate it has obtained, with the cells it updates as
    its result: none when the sheet is full; [None] when [fuel] iterations
    did not end the retrieval. *)
Definition main `{Syntax} (rate : option Qc) (ws : worksheet) (fuel : nat)
    : io world (option (list (Z * Z * value))) :=
  answer ← main_fetch fuel;
  match answer with
  | None => mret None
  | Some answer =>
      '(margin, dealcount, amount, netRevenue, cost) ←
        run (extract_data answer rate);
      next_row ← get_next_open_row ws;
      match next_row with
      | None => mret (Some [])
      | Some next_row =>
          let data_to_write :=
            [Today; Percent margin; Count dealcount; Rounded amount;
             Rounded netRevenue; Rounded cost] in
          mret (Some (write_data_to_sheet data_to_write next_row))
      end
  end.

End AllTime.

(** ** Vocabulary of the statements *)

(** A deal given by its properties, as in a JSON object literal. *)
Definition deal_of (props : list (string * pyval)) : deal :=
  {| properties := list_to_map props |}.

Definition total (xs : list Qc) : Qc := foldr Qcplus 0 xs.

(** "net_revenue when present, otherwise amount", with presence as the
    loop tests it. *)
Definition net_revenue_or_amount `{Syntax} (amount_property : string)
    (d : deal) : result Qc :=
  if truthy (get d "net_revenue") then float (get d "net_revenue")
  else float (get d amount_property).


(** The deal is not converted: it is not in NZD. *)
Definition base_currency (d : deal) : Prop :=
  eq_str (get d "deal_currency_code") "NZD" = false.

(** The state of the loop of [extract_data] after the given deals. *)
Definition loop `{Syntax} (amount_property : string) (rate : option Qc)
    (deals : list deal) : traced locals :=
  for_each (extract_step amount_property rate) deals initially.

(** The value [cost] holds after the loop of the all-time script. *)
Definition cost_after (deals : list deal) (cost : option Qc) (st : locals)
    : option Qc :=
  match deals with
  | [] => cost
  | _ :: _ => Some (num_amounts st - num_net_revenue st)
  end.

(** The locals after an iteration that adds [a] to the total amount and
    [n] to the total net revenue. *)
Definition advanced (st : locals) (d : deal) (a n : Qc) : locals :=
  {| idcal := idcal st ++ [get d "hs_object_id"];
     num_amounts := num_amounts st + a;
     num_net_revenue := num_net_revenue st + n;
     margin := Some ((num_net_revenue st + n) / (num_amounts st + a) * Q2Qc 100) |}.

(** The end of such an iteration: the margin division raises or the
    iteration is complete. *)
Definition margin_step (st : locals) (d : deal) (a n : Qc) : result locals :=
  if Qc_eq_bool (num_amounts st + a) 0 then Raise ZeroDivisionError
  else Ok (advanced st d a n).

(** The two shapes of an iteration of the loop, [pre] being the divisions
    before the margin: it raises before the margin is computed, or its
    last division is the margin of the new totals, to which the deal has
    added its amount and, as net revenue, the amount, the net_revenue or
    the converted net_revenue. *)
Definition iteration_shape `{Syntax} (amount_property : string)
    (rate : option Qc) (st : locals) (d : deal) (pre : list arith) : Prop :=
  (∃ e, extract_step amount_property rate st d = (pre, Raise e)) ∨
  (∃ a n, float (get d amount_property) = Ok a ∧
     (n = a ∨ float (get d "net_revenue") = Ok n ∨
      ∃ R r, rate = Some r ∧ r ≠ 0 ∧
             float (get d "net_revenue") = Ok R ∧ n = R / r) ∧
     extract_step amount_property rate st d =
       (pre ++ [Margin (num_net_revenue st + n) (num_amounts st + a)],
        margin_step st d a n)).



(** ** Sample deals *)

Module Sample.

(** A deal in the given currency, under both names of the amount. *)
Definition deal_in (currency : string) (amount : string)
    (net_revenue : option string) : deal :=
  deal_of ([("hs_object_id", VStr "1"); ("amount", VStr amount);
            ("amount_in_home_currency", VStr amount);
            ("deal_currency_code", VStr currency)]
           ++ match net_revenue with
              | Some s => [("net_revenue", VStr s)]
              | None => []
              end).

Definition aud := deal_in "AUD".
Definition nzd := deal_in "NZD".

End Sample.

(** ** Vocabulary of the orchestration *)

(** The cells of the report in period-major, category-minor order: for
    each period in turn, each stage category in turn. *)
Definition period_major {P C} (periods : list P) (categories : list C)
    : list (P * C) :=
  p ← periods; c ← categories; [(p, c)].

(** The text [main] writes for a result. *)
Definition report_of (result : pyval * pyval) : FinancialYear.report :=
  if negb (eq_str result.1 "NA") then FinancialYear.Formatted result.1 result.2
  else FinancialYear.Na.

(** The layout of the report: the k-th result (from 0) goes to the column
    [chr(65 + 1 + k / 3)], at row [2 + k mod 3]: three results down a
    column, then the next column. *)
Definition placed (k : nat) (result : pyval * pyval) : FinancialYear.event :=
  FinancialYear.UpdateAcell (65 + (1 + Z.of_nat k / 3)) (2 + Z.of_nat k mod 3)
                            (report_of result).

(** The deals accumulated by the all-time script after [k] requests with
    ["after"], the first of them being request number [n] of the run. *)
Fixpoint fetched (crm : nat → string → Z → list deal) (n : nat)
    (answer : list deal) (k : nat) : list deal :=
  match k with
  | O => answer
  | S k =>
      let answer := fetched crm n answer k in
      answer ++ crm (n + k)%nat "after" (len answer)
  end.

(** The cursor of the writing loop of [main] before the k-th result. *)
Definition cursor_at (k : nat) (c : FinancialYear.cursor) : Prop :=
  FinancialYear.values_entered c = Z.of_nat k ∧
  FinancialYear.col c = (1 + Z.of_nat k / 3)%Z ∧
  FinancialYear.row c = (2 + Z.of_nat k mod 3)%Z.

(** A run against a CRM without deals. *)
Definition empty_crm : FinancialYear.world :=
  {| FinancialYear.hubspot := λ _ _, []; FinancialYear.calls := 0;
     FinancialYear.log := [] |}.

(** A sheet of five rows whose first three rows are filled, and a run of
    the all-time script against a CRM without deals, with the given text
    in the counter file. *)
Definition sample_sheet : AllTime.worksheet :=
  {| AllTime.row_count := 5;
     AllTime.cells := list_to_map [((1, 1), "Date"); ((2, 1), "2026-11-01");
                                   ((3, 1), "2026-11-02")]%Z |}.

Definition counter_at (text : string) : AllTime.world :=
  {| AllTime.hubspot := λ _ _ _, []; AllTime.calls := 0;
     AllTime.rownumber_txt := Some text; AllTime.log := [] |}.

(** The deal with its currency code replaced. *)
Definition with_currency (currency : pyval) (d : deal) : deal :=
  {| properties := <["deal_currency_code" := currency]> (properties d) |}.


(** The requests made to the CRM among the events of a run. *)
Definition requests (es : list FinancialYear.event)
    : list FinancialYear.query :=
  omap (λ e, match e with FinancialYear.Post q => Some q | _ => None end) es.

(** The two requests of a cell: with ["limit"], then with ["after"]. *)
Definition requests_of_cell (cell : string * string * list string)
    : list FinancialYear.query :=
  let '((start, end_), stage_category) := cell in
  [{| FinancialYear.start_date := start; FinancialYear.end_date := end_;
      FinancialYear.deal_stage := stage_category;
      FinancialYear.page := "limit" |};
   {| FinancialYear.start_date := start; FinancialYear.end_date := end_;
      FinancialYear.deal_stage := stage_category;
      FinancialYear.page := "after" |}].

(** The cell written by an event of the writing loop. *)
Definition coordinates (e : FinancialYear.event) : option (Z * Z) :=
  match e with
  | FinancialYear.UpdateAcell column row _ => Some (column, row)
  | _ => None
  end.

(** The entry of a cell in the two lists of [alltime]: the margin and the
    count of the deals of both pages together, NA for no deal. *)
Definition cell_entry `{Syntax} (rate : option Qc) (deals deals_after : list deal)
    : result (pyval * pyval) :=
  match deals ++ deals_after with
  | [] => Ok (VStr "NA", VStr "NA")
  | _ :: _ =>
      match outcome (FinancialYear.extract_data (deals ++ deals_after) rate) with
      | Ok (margin, _) =>
          Ok (VFloat margin,
              VInt (Z.of_nat (length deals + length deals_after)))
      | Raise e => Raise e
      end
  end.

(** The entry of the k-th cell (from 0) of a run of [alltime] that starts
    in the world [w]: the cell makes the requests number [2k] and [2k + 1]
    of the run. *)
Definition entry_at `{Syntax} (rate : option Qc) (w : FinancialYear.world)
    (k : nat) (cell : string * string * list string) : result (pyval * pyval) :=
  let '((start, end_), stage_category) := cell in
  cell_entry rate
    (FinancialYear.hubspot w (FinancialYear.calls w + 2 * k)
       {| FinancialYear.start_date := start; FinancialYear.end_date := end_;
          FinancialYear.deal_stage := stage_category;
          FinancialYear.page := "limit" |})
    (FinancialYear.hubspot w (S (FinancialYear.calls w + 2 * k))
       {| FinancialYear.start_date := start; FinancialYear.end_date := end_;
          FinancialYear.deal_stage := stage_category;
          FinancialYear.page := "after" |}).

(** A margin and a total that belong together: both NA, or a number and a
    positive count. *)
Definition aligned (margin total : pyval) : Prop :=
  (margin = VStr "NA" ∧ total = VStr "NA") ∨
  (∃ m n, margin = VFloat m ∧ total = VInt n ∧ (1 ≤ n)%Z).

(** The three stage categories of [main]. *)
Definition stage_categories : list (list string) :=
  [["123633772"; "848f19bf-930a-4f0f-bbc5-8d4b69d2cc3a"];
   ["123633772"]; ["848f19bf-930a-4f0f-bbc5-8d4b69d2cc3a"]].

(** A CRM that answers every request with the given deals. *)
Definition constant_crm (deals : list deal) : FinancialYear.world :=
  {| FinancialYear.hubspot := λ _ _, deals; FinancialYear.calls := 0;
     FinancialYear.log := [] |}.

(** The body of the loops of [alltime], as one loop over the cells. *)
Definition cell_body `{Syntax} (rate : option Qc)
    (lists : list pyval * list pyval) (cell : string * string * list string)
    : io FinancialYear.world (list pyval * list pyval) :=
  let '((start, end_), stage_category) := cell in
  FinancialYear.alltime_cell rate start end_ lists stage_category.

(** The last day of the quarter that starts with the month [m] of the
    year [y]. *)
Definition quarter_end (y m : Z) : Datetime.date :=
  {| Datetime.year := y; Datetime.month := m + 2;
     Datetime.day := Datetime.days_in_month y (m + 2) |}.

(** The year in which the financial year of a date starts. *)
Definition financial_year_of (today : Datetime.date) : Z :=
  if (7 <=? Datetime.month today)%Z then Datetime.year today
  else (Datetime.year today - 1)%Z.



(** * Properties *)

(** ** The monad of traced computations *)

Section Traced.

Lemma Qc_eq_bool_false (x : Qc) : x ≠ 0 → Qc_eq_bool x 0 = false.
Proof.
  intros Hx. destruct (Qc_eq_bool x 0) eqn:E; [|done].
  by apply Qc_eq_bool_correct in E.
Qed.

Lemma outcome_bind {A B} (m : traced A) (f : A → traced B) :
  outcome (m ≫= f) =
  match outcome m with Ok a => outcome (f a) | Raise e => Raise e end.
Proof.
  destruct m as [t [a|e]]; [|done].
  unfold mbind, traced_bind, outcome; simpl. by destruct (f a).
Qed.

Lemma divisions_bind {A B} (m : traced A) (f : A → traced B) :
  divisions (m ≫= f) =
  divisions m ++ match outcome m with Ok a => divisions (f a) | Raise _ => [] end.
Proof.
  destruct m as [t [a|e]]; unfold mbind, traced_bind, divisions, outcome; simpl.
  - by destruct (f a).
  - by rewrite app_nil_r.
Qed.

Lemma traced_eq {X} (m m' : traced X) :
  divisions m = divisions m' → outcome m = outcome m' → m = m'.
Proof. destruct m, m'; unfold divisions, outcome; simpl. congruence. Qed.

Lemma bind_ext {A B} (m : traced A) (f f' : A → traced B) : (∀ a, f a = f' a) → m ≫= f = m ≫= f'.
Proof.
  intros E. destruct m as [t [a|e]]; [|done].
  unfold mbind, traced_bind. by rewrite E.
Qed.

Lemma bind_assoc {A B C} (m : traced A) (f : A → traced B) (g : B → traced C) : (m ≫= f) ≫= g = m ≫= (λ a, f a ≫= g).
Proof.
  apply traced_eq.
  - rewrite !divisions_bind, outcome_bind.
    destruct (outcome m); rewrite <-?app_assoc; [|done].
    by rewrite divisions_bind.
  - rewrite !outcome_bind. destruct (outcome m); [|done].
    by rewrite outcome_bind.
Qed.

Lemma bind_lift_ok {A B} (r : result A) (f : A → traced B) a : r = Ok a → lift r ≫= f = f a.
Proof. intros ->. unfold mbind, traced_bind, lift. by destruct (f a). Qed.

Lemma bind_lift_raise {A B} (r : result A) (f : A → traced B) e :
  r = Raise e → lift r ≫= f = ([], Raise e).
Proof. by intros ->. Qed.

Lemma bind_ret {A B} (a : A) (f : A → traced B) : mret a ≫= f = f a.
Proof. unfold mbind, mret, traced_bind, traced_ret. by destruct (f a). Qed.

Lemma bind_div_nonzero {B} tag x y (h : Qc → traced B) :
  y ≠ 0 → div tag x y ≫= h = (tag x y :: divisions (h (x / y)), outcome (h (x / y))).
Proof.
  intros Hy. unfold mbind, traced_bind, div. rewrite Qc_eq_bool_false by done.
  by destruct (h _).
Qed.

Lemma bind_div_zero {B} tag x (h : Qc → traced B) :
  div tag x 0 ≫= h = ([tag x 0], Raise ZeroDivisionError).
Proof. done. Qed.

End Traced.

Section ForEach.
Context {S A : Type} (body : S → A → traced S).

Lemma for_each_app (l1 l2 : list A) (s : S) :
  for_each body (l1 ++ l2) s = for_each body l1 s ≫= for_each body l2.
Proof.
  revert s. induction l1 as [|x l1 IH]; intros s; cbn [for_each app].
  - by rewrite bind_ret.
  - rewrite bind_assoc. apply bind_ext. intros s'. apply IH.
Qed.


End ForEach.

(** ** One iteration of the loop of [extract_data] *)

Section Step.
Context `{Syntax}.
Variables (key : string) (rate : option Qc) (st : locals) (d : deal).

Lemma step_tail net_revenue a n :
  float (get d key) = Ok a →
  (if truthy net_revenue then float net_revenue else float (get d key)) = Ok n →
  (a ← lift (float (get d key));
   n ← lift (if truthy net_revenue then float net_revenue else float (get d key));
   q ← div Margin (num_net_revenue st + n) (num_amounts st + a);
   mret {| idcal := idcal st ++ [get d "hs_object_id"];
           num_amounts := num_amounts st + a;
           num_net_revenue := num_net_revenue st + n;
           margin := Some (q * Q2Qc 100) |})
  = ([Margin (num_net_revenue st + n) (num_amounts st + a)], margin_step st d a n).
Proof.
  intros Ha Hn. rewrite (bind_lift_ok _ _ _ Ha), (bind_lift_ok _ _ _ Hn).
  unfold margin_step, advanced. destruct (Qc_eq_bool _ _) eqn:E.
  - apply Qc_eq_bool_correct in E. by rewrite E.
  - rewrite bind_div_nonzero; [done|]. intros E'. by rewrite E' in E.
Qed.

Lemma step_tail_raises net_revenue e :
  (float (get d key) = Raise e) ∨
  (∃ a, float (get d key) = Ok a ∧
     (if truthy net_revenue then float net_revenue else float (get d key)) = Raise e) →
  (a ← lift (float (get d key));
   n ← lift (if truthy net_revenue then float net_revenue else float (get d key));
   q ← div Margin (num_net_revenue st + n) (num_amounts st + a);
   mret {| idcal := idcal st ++ [get d "hs_object_id"];
           num_amounts := num_amounts st + a;
           num_net_revenue := num_net_revenue st + n;
           margin := Some (q * Q2Qc 100) |})
  = ([], Raise e).
Proof.
  intros [Ha | (a & Ha & Hn)].
  - by rewrite (bind_lift_raise _ _ _ Ha).
  - by rewrite (bind_lift_ok _ _ _ Ha), (bind_lift_raise _ _ _ Hn).
Qed.

(** A deal that is not converted. *)
Lemma step_plain a n :
  base_currency d ∨ rate = None →
  float (get d key) = Ok a →
  net_revenue_or_amount key d = Ok n →
  extract_step key rate st d =
    ([Margin (num_net_revenue st + n) (num_amounts st + a)], margin_step st d a n).
Proof.
  intros Hc Ha Hn. unfold extract_step.
  assert ((if eq_str (get d "deal_currency_code") "NZD" then
       match rate with
       | Some rate =>
           x ← lift (float (get d "net_revenue"));
           net_revenue_aud ← div Convert x rate;
           mret (VFloat net_revenue_aud)
       | None => mret (get d "net_revenue")
       end
     else mret (get d "net_revenue")) = (mret (get d "net_revenue") : traced pyval)) as ->.
  { destruct Hc as [-> | ->]; [done|]. by destruct (eq_str _ _). }
  rewrite bind_ret. by apply step_tail.
Qed.

Lemma step_plain_raises e :
  base_currency d ∨ rate = None →
  (float (get d key) = Raise e) ∨
  (∃ a, float (get d key) = Ok a ∧ net_revenue_or_amount key d = Raise e) →
  extract_step key rate st d = ([], Raise e).
Proof.
  intros Hc He. unfold extract_step.
  assert ((if eq_str (get d "deal_currency_code") "NZD" then
       match rate with
       | Some rate =>
           x ← lift (float (get d "net_revenue"));
           net_revenue_aud ← div Convert x rate;
           mret (VFloat net_revenue_aud)
       | None => mret (get d "net_revenue")
       end
     else mret (get d "net_revenue")) = (mret (get d "net_revenue") : traced pyval)) as ->.
  { destruct Hc as [-> | ->]; [done|]. by destruct (eq_str _ _). }
  rewrite bind_ret. by apply step_tail_raises.
Qed.

(** A deal in NZD with a rate: the converted value is a float, and a
    float that is zero is falsy. *)
Lemma step_converted r R a :
  eq_str (get d "deal_currency_code") "NZD" = true →
  rate = Some r → r ≠ 0 →
  float (get d "net_revenue") = Ok R →
  float (get d key) = Ok a →
  extract_step key rate st d =
    ([Convert R r;
      Margin (num_net_revenue st + (if Qc_eq_bool (R / r) 0 then a else R / r))
             (num_amounts st + a)],
     margin_step st d a (if Qc_eq_bool (R / r) 0 then a else R / r)).
Proof.
  intros Hc -> Hr HR Ha. unfold extract_step. rewrite Hc.
  rewrite !bind_assoc, (bind_lift_ok _ _ _ HR), bind_assoc.
  rewrite bind_div_nonzero by done. rewrite bind_ret.
  rewrite (step_tail (VFloat (R / r)) a (if Qc_eq_bool (R / r) 0 then a else R / r)); [done..|].
  simpl. by destruct (Qc_eq_bool (R / r) 0).
Qed.

Lemma step_converted_amount_raises r R e :
  eq_str (get d "deal_currency_code") "NZD" = true →
  rate = Some r → r ≠ 0 →
  float (get d "net_revenue") = Ok R →
  float (get d key) = Raise e →
  extract_step key rate st d = ([Convert R r], Raise e).
Proof.
  intros Hc -> Hr HR Ha. unfold extract_step. rewrite Hc.
  rewrite !bind_assoc, (bind_lift_ok _ _ _ HR), bind_assoc.
  rewrite bind_div_nonzero by done. rewrite bind_ret.
  rewrite (step_tail_raises _ e); [done|]. by left.
Qed.

Lemma step_conversion_raises r e :
  eq_str (get d "deal_currency_code") "NZD" = true →
  rate = Some r →
  float (get d "net_revenue") = Raise e →
  extract_step key rate st d = ([], Raise e).
Proof.
  intros Hc -> HR. unfold extract_step. rewrite Hc.
  by rewrite !bind_assoc, (bind_lift_raise _ _ _ HR).
Qed.

Lemma step_zero_rate R :
  eq_str (get d "deal_currency_code") "NZD" = true →
  rate = Some 0 →
  float (get d "net_revenue") = Ok R →
  extract_step key rate st d = ([Convert R 0], Raise ZeroDivisionError).
Proof.
  intros Hc -> HR. unfold extract_step. rewrite Hc.
  by rewrite !bind_assoc, (bind_lift_ok _ _ _ HR), bind_assoc, bind_div_zero.
Qed.

(** Every iteration has one of the two shapes of [iteration_shape]. *)
Lemma step_shape_plain : base_currency d ∨ rate = None → iteration_shape key rate st d [].
Proof.
  intros Hc. destruct (float (get d key)) as [a|e] eqn:Ha.
  2:{ left. exists e. apply step_plain_raises; auto. }
  destruct (net_revenue_or_amount key d) as [n|e] eqn:Hn.
  - right. exists a, n. split_and!; [done| |by apply step_plain; auto].
    unfold net_revenue_or_amount in Hn. destruct (truthy _); [by right; left|].
    left. congruence.
  - left. exists e. apply step_plain_raises; eauto.
Qed.

Lemma step_shape_converted r :
  eq_str (get d "deal_currency_code") "NZD" = true → rate = Some r →
  ∃ pre, (∀ x y, Margin x y ∉ pre) ∧ iteration_shape key rate st d pre.
Proof.
  intros Hc Hr. destruct (float (get d "net_revenue")) as [R|e] eqn:HR.
  2:{ exists []. split; [intros ?? []%elem_of_nil|].
      left. exists e. by eapply step_conversion_raises. }
  destruct (decide (r = 0)) as [->|Hr0].
  { exists [Convert R 0]. split; [by intros x y [=]%list_elem_of_singleton|].
    left. eexists. by apply step_zero_rate. }
  exists [Convert R r]. split; [by intros x y [=]%list_elem_of_singleton|].
  destruct (float (get d key)) as [a|e] eqn:Ha.
  - right. exists a, (if Qc_eq_bool (R / r) 0 then a else R / r).
    split_and!; [done| |by apply step_converted].
    destruct (Qc_eq_bool _ _); [by left|]. right; right. by exists R, r.
  - left. exists e. by apply step_converted_amount_raises.
Qed.

Lemma step_shape : ∃ pre, (∀ x y, Margin x y ∉ pre) ∧ iteration_shape key rate st d pre.
Proof.
  assert (rate = None ∨ ∃ r, rate = Some r) as [Hr | [r Hr]]
    by (destruct rate; eauto).
  - exists []. split; [intros ?? []%elem_of_nil|]. apply step_shape_plain; auto.
  - destruct (eq_str (get d "deal_currency_code") "NZD") eqn:Hc.
    + by apply (step_shape_converted r).
    + exists []. split; [intros ?? []%elem_of_nil|].
      apply step_shape_plain. by left.
Qed.

(** What a successful iteration did. *)
Lemma step_ok_inv st' :
  outcome (extract_step key rate st d) = Ok st' →
  ∃ a n, float (get d key) = Ok a ∧ num_amounts st + a ≠ 0 ∧ st' = advanced st d a n ∧
    (n = a ∨ float (get d "net_revenue") = Ok n ∨
     ∃ R r, rate = Some r ∧ r ≠ 0 ∧ float (get d "net_revenue") = Ok R ∧ n = R / r).
Proof.
  destruct step_shape as (pre & _ & [[e ->] | (a & n & Ha & Hn & ->)]); [done|].
  unfold outcome, margin_step; simpl. destruct (Qc_eq_bool _ _) eqn:E; [done|].
  intros [= <-]. exists a, n. split_and!; try done.
  intros E'. by rewrite E' in E.
Qed.


End Step.

(** ** The loop of [extract_data] *)

Section Loop.
Context `{Syntax}.
Variables (key : string) (rate : option Qc).

Lemma for_each_cons_outcome (d : deal) deals st :
  outcome (for_each (extract_step key rate) (d :: deals) st) =
  match outcome (extract_step key rate st d) with
  | Ok st1 => outcome (for_each (extract_step key rate) deals st1)
  | Raise e => Raise e
  end.
Proof. cbn [for_each]. apply outcome_bind. Qed.

(** After a loop that went through: one id per deal, and from the first
    deal on a non-zero total amount and the margin of the totals. *)
Lemma loop_ok_inv deals st st' :
  outcome (for_each (extract_step key rate) deals st) = Ok st' →
  length (idcal st') = (length (idcal st) + length deals)%nat ∧
  (deals ≠ [] →
   num_amounts st' ≠ 0 ∧
   margin st' = Some (num_net_revenue st' / num_amounts st' * Q2Qc 100)).
Proof.
  revert st. induction deals as [|d deals IH]; intros st.
  - intros [= <-]. split; [simpl; lia | done].
  - rewrite for_each_cons_outcome.
    destruct (outcome (extract_step key rate st d)) as [st1|] eqn:E1; [|done].
    apply step_ok_inv in E1 as (a & n & _ & Hnz & -> & _).
    intros E. destruct (IH _ E) as [Hlen Hm]. split.
    + rewrite Hlen. simpl. rewrite length_app. simpl. lia.
    + intros _. destruct deals as [|d' deals]; [|by apply Hm].
      injection E as <-. done.
Qed.






End Loop.

(** ** The two [extract_data] in terms of the loop *)

Section ExtractData.
Context `{Syntax}.
Variable rate : option Qc.

Lemma all_time_loop deals st cost :
  for_each (AllTime.extract_step rate) deals (st, cost) =
  st' ← for_each (extract_step "amount_in_home_currency" rate) deals st;
  mret (st', cost_after deals cost st').
Proof.
  revert st cost. induction deals as [|d deals IH]; intros st cost.
  - cbn [for_each]. by rewrite bind_ret.
  - cbn [for_each].
    change (AllTime.extract_step rate (st, cost) d) with
      (st' ← extract_step "amount_in_home_currency" rate st d;
       mret (st', Some (num_amounts st' - num_net_revenue st'))).
    rewrite !bind_assoc. apply bind_ext. intros st1. rewrite bind_ret, IH.
    destruct deals as [|d' deals]; [|done].
    cbn [for_each]. by rewrite !bind_ret.
Qed.

Lemma financial_year_divisions deals :
  divisions (FinancialYear.extract_data deals rate) =
  divisions (loop "amount" rate deals).
Proof.
  unfold FinancialYear.extract_data, loop. rewrite divisions_bind.
  destruct (outcome _) as [st|]; [|by rewrite app_nil_r].
  rewrite divisions_bind. destruct (margin st); by rewrite app_nil_r.
Qed.

Lemma financial_year_raises deals e :
  outcome (loop "amount" rate deals) = Raise e →
  outcome (FinancialYear.extract_data deals rate) = Raise e.
Proof.
  intros E. unfold FinancialYear.extract_data, loop in *.
  by rewrite outcome_bind, E.
Qed.

Lemma financial_year_returns deals st :
  deals ≠ [] →
  outcome (loop "amount" rate deals) = Ok st →
  outcome (FinancialYear.extract_data deals rate) =
    Ok (num_net_revenue st / num_amounts st * Q2Qc 100, length deals).
Proof.
  intros Hne E. unfold FinancialYear.extract_data, loop in *.
  destruct (loop_ok_inv _ _ _ _ _ E) as [Hlen [_ Hm]]; [done|].
  rewrite outcome_bind, E, outcome_bind, Hm. simpl.
  by rewrite Hlen.
Qed.

Lemma all_time_divisions deals :
  divisions (AllTime.extract_data deals rate) =
  divisions (loop "amount_in_home_currency" rate deals).
Proof.
  unfold AllTime.extract_data, loop. rewrite all_time_loop, bind_assoc.
  rewrite divisions_bind.
  destruct (outcome _) as [st|]; [|by rewrite app_nil_r].
  rewrite bind_ret. cbv beta iota. rewrite divisions_bind.
  destruct (margin st) as [m|]; [|by rewrite app_nil_r].
  cbn [local lift outcome divisions fst snd app]. rewrite divisions_bind.
  destruct (cost_after _ _ _); by rewrite app_nil_r.
Qed.

Lemma all_time_raises deals e :
  outcome (loop "amount_in_home_currency" rate deals) = Raise e →
  outcome (AllTime.extract_data deals rate) = Raise e.
Proof.
  intros E. unfold AllTime.extract_data, loop in *.
  by rewrite all_time_loop, bind_assoc, outcome_bind, E.
Qed.

Lemma all_time_returns deals st :
  deals ≠ [] →
  outcome (loop "amount_in_home_currency" rate deals) = Ok st →
  outcome (AllTime.extract_data deals rate) =
    Ok (num_net_revenue st / num_amounts st * Q2Qc 100, length deals,
        num_amounts st, num_net_revenue st,
        num_amounts st - num_net_revenue st).
Proof.
  intros Hne E. unfold AllTime.extract_data, loop in *.
  destruct (loop_ok_inv _ _ _ _ _ E) as [Hlen [_ Hm]]; [done|].
  rewrite all_time_loop, bind_assoc, outcome_bind, E, bind_ret.
  cbv beta iota. rewrite outcome_bind, Hm. simpl.
  destruct deals; [done|]. simpl. by rewrite Hlen.
Qed.

End ExtractData.

(** ** Rationals *)

Lemma Qc_eval (x y : Qc) : (this x == this y)%Q → x = y.
Proof. apply Qc_is_canon. Qed.

(** Closed equations between outcomes: evaluate both sides, then compare
    the rationals by their values. *)
Ltac evaluate :=
  vm_compute;
  repeat match goal with
    | |- @eq Qc _ _ => apply Qc_eval; reflexivity
    | |- Ok _ = Ok _ => apply f_equal
    | |- (_, _) = (_, _) => apply (f_equal2 pair)
    | |- _ => reflexivity
    end.




(** The decimal syntax is lawful. *)
#[global] Instance decimal_lawful : @LawfulSyntax Decimal.syntax.
Proof.
  split; [done|]. intros z. simpl. unfold Decimal.parse_int, Decimal.print_int.
  rewrite NilZero.isi; simpl.
  - by rewrite DecimalZ.of_to.
  - destruct z; simpl; [done| |done].
    intros [= E]. by apply Unsigned.to_uint_nonnil in E.
  - destruct z; simpl; [done|done|].
    intros [= E]. by apply Unsigned.to_uint_nonnil in E.
Qed.


(** ** The aggregation: properties of [extract_data] *)










(** The same scenario end to end: effective net revenue 50, margin 50. *)
Lemma nzd_scenario :
  outcome (AllTime.extract_data [Sample.nzd "100" (Some "100")] (Some (Q2Qc 2)))
    = Ok (Q2Qc 50, 1%nat, Q2Qc 100, Q2Qc 50, Q2Qc 50) ∧
  outcome (FinancialYear.extract_data [Sample.nzd "100" (Some "100")] (Some (Q2Qc 2)))
    = Ok (Q2Qc 50, 1%nat).
Proof. split; evaluate. Qed.

(** C5 (where the statement of the specification fails).  A single deal without net_revenue and with
    amount 0: the margin division raises, the margin is not 100.  And a
    deal in NZD without net_revenue, with the rate present:
    [float(None)] raises in the conversion, before the fallback. *)
Lemma C5_missing_net_revenue_in_nzd_raises :
  outcome (FinancialYear.extract_data [Sample.aud "0" None] None)
    = Raise ZeroDivisionError ∧
  outcome (FinancialYear.extract_data [Sample.nzd "100" None] (Some (Q2Qc 2)))
    = Raise TypeError ∧
  outcome (AllTime.extract_data [Sample.nzd "100" None] (Some (Q2Qc 2)))
    = Raise TypeError ∧
  outcome (FinancialYear.extract_data [Sample.nzd "100" (Some "")] (Some (Q2Qc 2)))
    = Raise ValueError.
Proof. split_and!; vm_compute; reflexivity. Qed.

(** C5 (as the code has it).  For every deal with missing or empty net_revenue that
    is not converted (its currency is not NZD, or the rate is absent) and
    whose amount is a number, an iteration of the loop of [extract_data]
    that reaches a non-zero total amount adds the amount to the total net
    revenue; a single-deal batch of such a deal with a non-zero amount
    yields the margin 100 in both scripts. *)
Theorem C5_missing_net_revenue_falls_back `{Syntax} rate d a :
  get d "net_revenue" = VNone ∨ get d "net_revenue" = VStr "" →
  base_currency d ∨ rate = None →
  (∀ key st, float (get d key) = Ok a → num_amounts st + a ≠ 0 →
     ∃ st', outcome (extract_step key rate st d) = Ok st' ∧
            num_net_revenue st' = num_net_revenue st + a) ∧
  (float (get d "amount") = Ok a → a ≠ 0 →
     outcome (FinancialYear.extract_data [d] rate) = Ok (Q2Qc 100, 1%nat)) ∧
  (float (get d "amount_in_home_currency") = Ok a → a ≠ 0 →
     outcome (AllTime.extract_data [d] rate) = Ok (Q2Qc 100, 1%nat, a, a, 0)).
Proof.
  intros Hmissing Hplain.
  assert (∀ key, float (get d key) = Ok a →
            net_revenue_or_amount key d = Ok a) as Hfall.
  { intros key Ha. unfold net_revenue_or_amount.
    by destruct Hmissing as [-> | ->]. }
  assert (∀ key st, float (get d key) = Ok a → num_amounts st + a ≠ 0 →
     outcome (extract_step key rate st d) =
       Ok {| idcal := idcal st ++ [get d "hs_object_id"];
             num_amounts := num_amounts st + a;
             num_net_revenue := num_net_revenue st + a;
             margin := Some ((num_net_revenue st + a) / (num_amounts st + a)
                             * Q2Qc 100) |}) as Hstep.
  { intros key st Ha Hnz. rewrite (step_plain key rate st d a a) by auto.
    unfold outcome, margin_step; simpl. by rewrite Qc_eq_bool_false. }
  assert (∀ key, float (get d key) = Ok a → a ≠ 0 →
     ∃ st, outcome (loop key rate [d]) = Ok st ∧
           num_amounts st = a ∧ num_net_revenue st = a) as Hloop.
  { intros key Ha Hnz. unfold loop. rewrite for_each_cons_outcome.
    rewrite (Hstep key initially Ha) by (simpl; by rewrite Qcplus_0_l).
    eexists. split; [done|]. simpl. by rewrite Qcplus_0_l. }
  assert (a ≠ 0 → a / a * Q2Qc 100 = Q2Qc 100) as Hm.
  { intros Hnz. unfold Qcdiv. by rewrite Qcmult_inv_r, Qcmult_1_l. }
  split_and!.
  - intros key st Ha Hnz. rewrite Hstep by done. eauto.
  - intros Ha Hnz. destruct (Hloop _ Ha Hnz) as (st & Hst & Hamt & Hnet).
    rewrite (financial_year_returns _ _ st) by done.
    by rewrite Hamt, Hnet, Hm.
  - intros Ha Hnz. destruct (Hloop _ Ha Hnz) as (st & Hst & Hamt & Hnet).
    rewrite (all_time_returns _ _ st) by done.
    rewrite Hamt, Hnet, Hm by done. do 2 f_equal. ring.
Qed.

(** A single deal with amount 100 and an empty net_revenue. *)
Lemma C5_missing_net_revenue_falls_back_witness :
  outcome (FinancialYear.extract_data [Sample.aud "100" (Some "")] (Some (Q2Qc 2)))
    = Ok (Q2Qc 100, 1%nat).
Proof.
  apply (C5_missing_net_revenue_falls_back
           (Some (Q2Qc 2)) (Sample.aud "100" (Some "")) (Q2Qc 100)).
  - right. reflexivity.
  - left. reflexivity.
  - evaluate.
  - vm_compute. discriminate.
Defined.




(** ** Programs on the outside world *)

Lemma io_bind_run {W A B} (m : io W A) (f : A → io W B) w :
  (m ≫= f) w =
  match m w with (Ok a, w') => f a w' | (Raise e, w') => (Raise e, w') end.
Proof. reflexivity. Qed.

Lemma io_for_each_app {W S A} (body : S → A → io W S) (l1 l2 : list A) s w :
  for_each body (l1 ++ l2) s w = (for_each body l1 s ≫= for_each body l2) w.
Proof.
  revert s w. induction l1 as [|x l1 IH]; intros s w; [done|].
  cbn [for_each app]. unfold mbind, io_bind in *.
  destruct (body s x w) as [[s'|e] w']; [|done]. apply IH.
Qed.

Lemma io_for_each_fmap {W S A B} (body : S → B → io W S) (f : A → B) l s w :
  for_each body (f <$> l) s w = for_each (λ s x, body s (f x)) l s w.
Proof.
  revert s w. induction l as [|x l IH]; intros s w; [done|].
  cbn [for_each fmap list_fmap]. unfold mbind, io_bind.
  destruct (body s (f x) w) as [[s'|e] w']; [|done]. apply IH.
Qed.

(** ** FinancialYearMargin.py: the orchestration *)

Section FinancialYear.
Import FinancialYear.
Context `{Syntax}.

Lemma record_record es1 es2 w : record es2 (record es1 w) = record (es1 ++ es2) w.
Proof. unfold record; simpl. by rewrite app_assoc. Qed.

Lemma find_deals_twice start end_ stage_category w :
  (deals ← find_deals start end_ stage_category "limit";
   deals_after ← find_deals start end_ stage_category "after";
   mret (deals, deals_after)) w =
  (Ok (hubspot w (calls w)
         {| start_date := start; end_date := end_;
            deal_stage := stage_category; page := "limit" |},
       hubspot w (S (calls w))
         {| start_date := start; end_date := end_;
            deal_stage := stage_category; page := "after" |}),
   {| hubspot := hubspot w; calls := S (S (calls w));
      log := log w ++ cell_requests start end_ stage_category |}).
Proof.
  unfold find_deals, mbind, io_bind, mret, io_ret, cell_requests; simpl.
  by rewrite <-app_assoc.
Qed.

Lemma write_result_spec c result w :
  write_result c result w =
  (Ok {| row := (if (values_entered c + 1) mod 3 =? 0 then 1 else row c) + 1;
         col := (if (values_entered c + 1) mod 3 =? 0 then col c + 1 else col c);
         values_entered := values_entered c + 1 |}%Z,
   record [UpdateAcell (65 + col c) (row c) (report_of result)] w).
Proof.
  destruct result as [margin total]. unfold write_result, report_of; simpl.
  unfold mbind, io_bind, emit; simpl.
  by destruct (_ =? _)%Z.
Qed.

Lemma write_results_log results k c w :
  cursor_at k c →
  ∃ c', for_each write_result results c w =
          (Ok c', record (imap (λ i, placed (k + i)) results) w) ∧
        cursor_at (k + length results) c'.
Proof.
  revert k c w. induction results as [|result results IH]; intros k c w Hc.
  - exists c. split; [|by rewrite Nat.add_0_r].
    simpl. unfold mret, io_ret, record. destruct w; simpl. by rewrite app_nil_r.
  - destruct Hc as (Hv & Hcol & Hrow).
    cbn [for_each]. unfold mbind, io_bind. rewrite write_result_spec.
    edestruct (IH (S k)) as (c' & -> & Hc').
    2:{ exists c'. split.
        - rewrite record_record, imap_cons. cbn [app].
          unfold placed at 2. rewrite Nat.add_0_r, Hcol, Hrow.
          apply (f_equal (λ es, (Ok c', record (_ :: es) w))), imap_ext.
          intros i x _. unfold compose.
          by replace (S k + i)%nat with (k + S i)%nat by lia.
        - simpl. by replace (k + S (length results))%nat
            with (S k + length results)%nat by lia. }
    unfold cursor_at; simpl. rewrite Hv, Hcol, Hrow.
    destruct (Z.eqb_spec ((Z.of_nat k + 1) mod 3) 0) as [E|E];
      split_and!; try lia;
      revert E; rewrite Nat2Z.inj_succ; unfold Z.succ;
      generalize (Z.of_nat k) (Nat2Z.is_nonneg k); intros z Hz;
      Z.div_mod_to_equations; lia.
Qed.

Lemma period_major_cons {P C} (p : P) (periods : list P) (categories : list C) :
  period_major (p :: periods) categories =
  (pair p <$> categories) ++ period_major periods categories.
Proof.
  unfold period_major. cbn [mbind list_bind]. f_equal.
Qed.

(** The nested loops of [alltime] are one loop over the cells in
    period-major order. *)
Lemma alltime_period_major deal_stage qs qe fs fe rate w :
  alltime deal_stage qs qe fs fe rate w =
  for_each (λ lists '((start, end_), stage_category),
              alltime_cell rate start end_ lists stage_category)
           (period_major [(qs, qe); (fs, fe)] deal_stage) ([], []) w.
Proof.
  assert (∀ start end_ lists w,
    for_each (λ lists '((start, end_), stage_category),
                alltime_cell rate start end_ lists stage_category)
             (pair (start, end_) <$> deal_stage) lists w
    = for_each (alltime_cell rate start end_) deal_stage lists w) as E
    by (intros; by rewrite io_for_each_fmap).
  rewrite !period_major_cons. unfold period_major at 1. cbn [mbind list_bind].
  rewrite app_nil_r, io_for_each_app. unfold alltime. cbn [for_each].
  unfold mbind, io_bind. rewrite E.
  destruct (for_each (M:=io world) _ deal_stage _ w) as [[lists|e] w1]; [|done].
  rewrite E.
  by destruct (for_each (M:=io world) _ deal_stage lists w1) as [[lists'|e] w2].
Qed.

(** A cell that is computed appends one margin and one total. *)
Lemma alltime_cell_appends rate start end_ margins totals stage_category w
    margins' totals' w' :
  alltime_cell rate start end_ (margins, totals) stage_category w
    = (Ok (margins', totals'), w') →
  ∃ margin total, margins' = margins ++ [margin] ∧ totals' = totals ++ [total].
Proof.
  unfold alltime_cell, find_deals, mbind, io_bind. simpl.
  destruct (_ ++ _) as [|d all_deals].
  - intros [= <- <- _]. eauto.
  - unfold run. destruct (outcome _) as [[margin total]|e]; [|done].
    intros [= <- <- _]. eauto.
Qed.

(** The aggregation on no deal at all reads [margin] before any
    assignment; [alltime] never calls it so. *)
Lemma extract_data_of_no_deal rate :
  extract_data [] rate = ([], Raise UnboundLocalError).
Proof. reflexivity. Qed.

(** C1.  For the empty deal sequence (both requests of a cell return no
    deal), the cell computed by [alltime] is NA for the margin and NA for
    the count; the run does not raise, and what it did are the two
    requests only: no division, neither the margin nor a conversion, was
    evaluated. *)
Theorem C1_no_deals_give_NA rate start end_ margins totals stage_category w :
  hubspot w (calls w)
    {| start_date := start; end_date := end_;
       deal_stage := stage_category; page := "limit" |} = [] →
  hubspot w (S (calls w))
    {| start_date := start; end_date := end_;
       deal_stage := stage_category; page := "after" |} = [] →
  alltime_cell rate start end_ (margins, totals) stage_category w =
    (Ok (margins ++ [VStr "NA"], totals ++ [VStr "NA"]),
     {| hubspot := hubspot w; calls := S (S (calls w));
        log := log w ++ cell_requests start end_ stage_category |}) ∧
  ∀ a, Arith a ∉ cell_requests start end_ stage_category.
Proof.
  intros Hlimit Hafter. split.
  - unfold alltime_cell, find_deals, mbind, io_bind. simpl.
    rewrite Hlimit, Hafter. simpl. unfold mret, io_ret, cell_requests.
    by rewrite <-app_assoc.
  - intros a. unfold cell_requests. by intros [|[|[]%elem_of_nil]%elem_of_cons]%elem_of_cons.
Qed.

(** C8.  [alltime] computes the cells in period-major, category-minor
    order, each computed cell appending its result to the lists; the
    writing loop of [main] puts the k-th result (from 0) in the column
    [chr(65 + 1 + k / 3)] at row [2 + k mod 3]: down the rows of a column
    for three results, then on to the next column. *)
Theorem C8_period_major_three_per_column :
  (∀ deal_stage qs qe fs fe rate w,
     alltime deal_stage qs qe fs fe rate w =
     for_each (λ lists '((start, end_), stage_category),
                 alltime_cell rate start end_ lists stage_category)
              (period_major [(qs, qe); (fs, fe)] deal_stage) ([], []) w) ∧
  (∀ rate start end_ margins totals stage_category w margins' totals' w',
     alltime_cell rate start end_ (margins, totals) stage_category w
       = (Ok (margins', totals'), w') →
     ∃ margin total,
       margins' = margins ++ [margin] ∧ totals' = totals ++ [total]) ∧
  (∀ results w,
     ∃ c, for_each write_result results
            {| row := 2; col := 1; values_entered := 0 |} w
          = (Ok c, record (imap placed results) w)) ∧
  (∀ rate quarter year w margins totals w1,
     alltime [["123633772"; "848f19bf-930a-4f0f-bbc5-8d4b69d2cc3a"];
              ["123633772"]; ["848f19bf-930a-4f0f-bbc5-8d4b69d2cc3a"]]
             quarter.1 quarter.2 year.1 year.2 rate w
       = (Ok (margins, totals), w1) →
     main rate quarter year w
       = (Ok (), record (imap placed (zip margins totals)) w1)).
Proof.
  split_and!.
  - apply alltime_period_major.
  - apply alltime_cell_appends.
  - intros results w.
    destruct (write_results_log results 0 {| row := 2; col := 1; values_entered := 0 |} w)
      as (c & Hc & _); [done|]. eauto.
  - intros rate quarter year w margins totals w1 Halltime.
    unfold main. rewrite io_bind_run, Halltime, io_bind_run.
    destruct (write_results_log (zip margins totals) 0
                {| row := 2; col := 1; values_entered := 0 |} w1)
      as (c & -> & _); done.
Qed.

End FinancialYear.

Section FinancialYearSamples.
Import FinancialYear.

Lemma C1_no_deals_give_NA_witness :
  (alltime_cell None "2026-07-01" "2026-09-30" ([], []) ["123633772"] empty_crm).1
    = Ok ([VStr "NA"], [VStr "NA"]).
Proof.
  by rewrite (proj1 (C1_no_deals_give_NA None "2026-07-01" "2026-09-30" [] []
                       ["123633772"] empty_crm eq_refl eq_refl)).
Defined.

(** Without deals, the six cells NA go to rows 2 to 4 of the columns
    [chr(66)] and [chr(67)]. *)
Lemma C8_period_major_three_per_column_witness :
  log (main None ("2026-07-01", "2026-09-30") ("2026-07-01", "2027-06-30")
         empty_crm).2
  = log (alltime [["123633772"; "848f19bf-930a-4f0f-bbc5-8d4b69d2cc3a"];
                  ["123633772"]; ["848f19bf-930a-4f0f-bbc5-8d4b69d2cc3a"]]
                 "2026-07-01" "2026-09-30" "2026-07-01" "2027-06-30" None
                 empty_crm).2
    ++ [UpdateAcell 66 2 Na; UpdateAcell 66 3 Na; UpdateAcell 66 4 Na;
        UpdateAcell 67 2 Na; UpdateAcell 67 3 Na; UpdateAcell 67 4 Na].
Proof.
  destruct (C8_period_major_three_per_column (H:=Decimal.syntax))
    as (_ & _ & _ & Hmain).
  specialize (Hmain None ("2026-07-01", "2026-09-30")
                ("2026-07-01", "2027-06-30") empty_crm).
  cbn [fst snd] in Hmain.
  destruct (alltime _ _ _ _ _ _ empty_crm) as [[[margins totals]|e] w1] eqn:E.
  - rewrite (Hmain margins totals w1 eq_refl).
    vm_compute in E. injection E as <- <- <-. vm_compute. reflexivity.
  - vm_compute in E. discriminate E.
Defined.

End FinancialYearSamples.

(** ** GithubVersionFutureMargin.py: the row cursor and the retrieval *)

Section AllTime.
Import AllTime.
Context `{Syntax}.

Lemma all_time_record_nil w : record [] w = w.
Proof. destruct w. unfold record; simpl. by rewrite app_nil_r. Qed.

Lemma all_time_record_record es1 es2 w :
  record es2 (record es1 w) = record (es1 ++ es2) w.
Proof. unfold record; simpl. by rewrite app_assoc. Qed.

(** The counter file holds [c]: it is read, then [c + 1] is written. *)
Lemma increment_file_number_spec w text c :
  rownumber_txt w = Some text → int_of_str text = Some c →
  increment_file_number w =
    (Ok c, {| hubspot := hubspot w; calls := calls w;
              rownumber_txt := Some (str_of_int (c + 1));
              log := log w ++ [FileRead; FileWrite (str_of_int (c + 1))] |}).
Proof.
  intros Hfile Hint. unfold increment_file_number.
  rewrite io_bind_run. unfold read_file at 1. rewrite Hfile.
  rewrite io_bind_run. unfold int. rewrite Hint.
  rewrite io_bind_run. unfold write_file, record, mret, io_ret; simpl.
  by rewrite <-app_assoc.
Qed.

(** The scan of the rows [c], [c + 1], ..., [c + n - 1]. *)
Lemma scan_range ws (n : nat) c w :
  ∃ r k,
    scan ws (seqZ c (Z.of_nat n)) w
      = (Ok r, record ((λ row, CellRead row 1) <$> seqZ c k) w) ∧
    match r with
    | Some row =>
        (c ≤ row < c + Z.of_nat n)%Z ∧ cells ws !! (row, 1%Z) = None ∧
        (∀ r', (c ≤ r' < row)%Z → is_Some (cells ws !! (r', 1%Z))) ∧
        k = (row - c + 1)%Z
    | None =>
        (∀ r', (c ≤ r' < c + Z.of_nat n)%Z → is_Some (cells ws !! (r', 1%Z))) ∧
        k = Z.of_nat n
    end.
Proof.
  revert c w. induction n as [|n IH]; intros c w.
  - exists None, 0%Z. simpl. rewrite all_time_record_nil.
    split; [done|]. split; [lia|done].
  - rewrite seqZ_cons by lia. cbn [scan]. rewrite io_bind_run.
    unfold cell at 1. rewrite io_bind_run. unfold emit at 1, mret at 1, io_ret.
    replace (Z.pred (Z.of_nat (S n))) with (Z.of_nat n) by lia.
    destruct (cells ws !! (c, 1%Z)) as [v|] eqn:Hc.
    + destruct (IH (Z.succ c) (record [CellRead c 1] w)) as (r & k & -> & Hr).
      exists r, (match r with Some row => row - c + 1 | None => Z.of_nat (S n) end)%Z.
      split.
      * rewrite all_time_record_record. do 2 f_equal.
        assert (0 ≤ k)%Z as Hk by (destruct r; lia).
        replace (match r with Some row => row - c + 1 | None => Z.of_nat (S n) end)%Z
          with (Z.succ k) by (destruct r; lia).
        rewrite (seqZ_cons c) by lia.
        by replace (Z.pred (Z.succ k)) with k by lia.
      * destruct r as [row|].
        -- destruct Hr as (Hrow & Hempty & Hfull & _). split; [lia|]. split; [done|]. split; [|lia].
           intros r' Hr'. destruct (decide (r' = c)) as [->|]; [by rewrite Hc|].
           apply Hfull. lia.
        -- destruct Hr as (Hfull & _). split; [|done].
           intros r' Hr'. destruct (decide (r' = c)) as [->|]; [by rewrite Hc|].
           apply Hfull. lia.
    + exists (Some c), 1%Z. split; [done|].
      split; [lia|]. split; [done|]. split; [|lia].
      intros r' Hr'. lia.
Qed.

(** [get_next_open_row] with the counter file holding [c]. *)
Lemma get_next_open_row_spec ws w text c :
  rownumber_txt w = Some text → int_of_str text = Some c →
  ∃ r k,
    get_next_open_row ws w =
      (Ok r, {| hubspot := hubspot w; calls := calls w;
                rownumber_txt := Some (str_of_int (c + 1));
                log := log w ++ [FileRead; FileWrite (str_of_int (c + 1))]
                             ++ ((λ row, CellRead row 1) <$> seqZ c k) |}) ∧
    match r with
    | Some row =>
        (c ≤ row ≤ row_count ws)%Z ∧ cells ws !! (row, 1%Z) = None ∧
        (∀ r', (c ≤ r' < row)%Z → is_Some (cells ws !! (r', 1%Z))) ∧
        k = (row - c + 1)%Z
    | None =>
        (∀ r', (c ≤ r' ≤ row_count ws)%Z → is_Some (cells ws !! (r', 1%Z))) ∧
        k = Z.max 0 (row_count ws + 1 - c)
    end.
Proof.
  intros Hfile Hint. unfold get_next_open_row.
  rewrite io_bind_run, (increment_file_number_spec w text c) by done.
  unfold range.
  assert (seqZ c (row_count ws + 1 - c)
          = seqZ c (Z.of_nat (Z.to_nat (row_count ws + 1 - c)))) as ->.
  { unfold seqZ. by rewrite Nat2Z.id. }
  edestruct scan_range as (r & k & -> & Hr). exists r, k. split.
  - unfold record; simpl. by rewrite <-app_assoc.
  - destruct r as [row|].
    + destruct Hr as (Hrow & Hempty & Hfull & Hk).
      split; [lia|]. by split.
    + destruct Hr as (Hfull & Hk). split; [|lia].
      intros r' Hr'. apply Hfull. lia.
Qed.

(** C7.  With the counter file holding [c], [get_next_open_row] reads the
    first-column cells of the rows [c], [c + 1], ... in order, up to the
    first empty one or to [row_count]; it returns the first row from [c]
    to [row_count] whose first-column cell is empty, and [None] (sheet
    full) when no cell in that range is empty. *)
Theorem C7_first_empty_row_from_cursor ws w text c :
  rownumber_txt w = Some text → int_of_str text = Some c →
  ∃ r w' k,
    get_next_open_row ws w = (Ok r, w') ∧
    log w' = log w ++ [FileRead; FileWrite (str_of_int (c + 1))]
                   ++ ((λ row, CellRead row 1) <$> seqZ c k) ∧
    match r with
    | Some row =>
        (c ≤ row ≤ row_count ws)%Z ∧ cells ws !! (row, 1%Z) = None ∧
        (∀ r', (c ≤ r' < row)%Z → is_Some (cells ws !! (r', 1%Z))) ∧
        k = (row - c + 1)%Z
    | None =>
        (∀ r', (c ≤ r' ≤ row_count ws)%Z → is_Some (cells ws !! (r', 1%Z))) ∧
        k = Z.max 0 (row_count ws + 1 - c)
    end.
Proof.
  intros Hfile Hint.
  destruct (get_next_open_row_spec ws w text c) as (r & k & -> & Hr); [done..|].
  by eexists r, _, k.
Qed.


End AllTime.

Section AllTimeSamples.
Import AllTime.

Lemma C7_first_empty_row_from_cursor_witness :
  ∃ r w' k,
    get_next_open_row sample_sheet (counter_at "2") = (Ok r, w') ∧
    log w' = [FileRead; FileWrite (str_of_int (2 + 1))]
               ++ ((λ row, CellRead row 1) <$> seqZ 2 k) ∧
    match r with
    | Some row =>
        (2 ≤ row ≤ 5)%Z ∧ cells sample_sheet !! (row, 1%Z) = None ∧
        (∀ r', (2 ≤ r' < row)%Z → is_Some (cells sample_sheet !! (r', 1%Z))) ∧
        k = (row - 2 + 1)%Z
    | None =>
        (∀ r', (2 ≤ r' ≤ 5)%Z → is_Some (cells sample_sheet !! (r', 1%Z))) ∧
        k = Z.max 0 (5 + 1 - 2)
    end.
Proof.
  apply (C7_first_empty_row_from_cursor (H:=Decimal.syntax) sample_sheet
           (counter_at "2") "2" 2); reflexivity.
Defined.


(** The same two calls evaluated: both return row 4, the file ends at 4. *)
Lemma two_calls_on_sample_sheet :
  ∃ w1 w2,
    get_next_open_row sample_sheet (counter_at "2") = (Ok (Some 4%Z), w1) ∧
    get_next_open_row sample_sheet w1 = (Ok (Some 4%Z), w2) ∧
    rownumber_txt w1 = Some "3" ∧ rownumber_txt w2 = Some "4".
Proof. eexists _, _. split_and!; vm_compute; reflexivity. Qed.

End AllTimeSamples.

(** *** The retrieval loop of [main] *)

Section Retrieval.
Import AllTime.

Lemma fetched_shift crm n answer k :
  fetched crm n answer (S k) =
  fetched crm (S n) (answer ++ crm n "after" (len answer)) k.
Proof.
  induction k as [|k IH].
  - simpl. by rewrite Nat.add_0_r.
  - change (fetched crm n answer (S (S k))) with
      (fetched crm n answer (S k)
         ++ crm (n + S k)%nat "after" (len (fetched crm n answer (S k)))).
    rewrite IH. simpl. by replace (n + S k)%nat with (S (n + k)) by lia.
Qed.

(** Among the first [fuel] accumulated lengths either all are multiples
    of 100 or there is a first one that is not. *)
Lemma first_partial_page (size : nat → Z) fuel :
  (∀ j, (j ≤ fuel)%nat → (size j mod 100 = 0)%Z) ∨
  ∃ k, (k ≤ fuel)%nat ∧ (size k mod 100 ≠ 0)%Z ∧
       ∀ j, (j < k)%nat → (size j mod 100 = 0)%Z.
Proof.
  induction fuel as [|fuel [IH | (k & Hk & Hstop & Hbefore)]].
  - destruct (decide (size 0%nat mod 100 = 0)%Z) as [E|E].
    + left. intros j Hj. by replace j with 0%nat by lia.
    + right. exists 0%nat. split_and!; [done..|]. lia.
  - destruct (decide (size (S fuel) mod 100 = 0)%Z) as [E|E].
    + left. intros j Hj. destruct (decide (j = S fuel)) as [->|]; [done|].
      apply IH. lia.
    + right. exists (S fuel). split_and!; [done..|].
      intros j Hj. apply IH. lia.
  - right. exists k. split_and!; [lia|done..].
Qed.

(** The loop ends at the first accumulated length that is not a multiple
    of 100, after that many further requests. *)
Lemma fetch_more_stops k fuel answer w :
  (k ≤ fuel)%nat →
  (∀ j, (j < k)%nat →
        (len (fetched (hubspot w) (calls w) answer j) mod 100 = 0)%Z) →
  (len (fetched (hubspot w) (calls w) answer k) mod 100 ≠ 0)%Z →
  ∃ w', fetch_more fuel answer (len answer) w
          = (Ok (Some (fetched (hubspot w) (calls w) answer k)), w') ∧
        calls w' = (calls w + k)%nat.
Proof.
  revert fuel answer w. induction k as [|k IH]; intros fuel answer w Hk Hbefore Hstop.
  - exists w. split; [|lia]. simpl in Hstop.
    destruct fuel; simpl; by rewrite (proj2 (Z.eqb_neq _ _) Hstop).
  - destruct fuel as [|fuel]; [lia|].
    assert (len answer mod 100 = 0)%Z as E0 by (apply (Hbefore 0%nat); lia).
    cbn [fetch_more]. rewrite (proj2 (Z.eqb_eq _ _) E0), io_bind_run.
    unfold find_deals at 1.
    set (w1 := {| hubspot := hubspot w; calls := S (calls w);
                  rownumber_txt := rownumber_txt w;
                  log := log w ++ [Post "after" (len answer)] |}).
    rewrite fetched_shift in Hstop.
    destruct (IH fuel (answer ++ hubspot w (calls w) "after" (len answer)) w1)
      as (w' & Hw' & Hcalls); [lia| |done|].
    { intros j Hj. simpl. rewrite <-fetched_shift. apply Hbefore. lia. }
    exists w'. split; [by rewrite fetched_shift|]. rewrite Hcalls. simpl. lia.
Qed.

(** While every accumulated length is a multiple of 100 the loop goes on:
    [fuel] iterations do not end it. *)
Lemma fetch_more_goes_on fuel answer w :
  (∀ j, (j ≤ fuel)%nat →
        (len (fetched (hubspot w) (calls w) answer j) mod 100 = 0)%Z) →
  ∃ w', fetch_more fuel answer (len answer) w = (Ok None, w') ∧
        calls w' = (calls w + fuel)%nat.
Proof.
  revert answer w. induction fuel as [|fuel IH]; intros answer w Hall.
  - exists w. split; [|lia]. pose proof (Hall 0%nat (Nat.le_refl _)) as E0.
    simpl in *. by rewrite (proj2 (Z.eqb_eq _ _) E0).
  - assert (len answer mod 100 = 0)%Z as E0 by (apply (Hall 0%nat); lia).
    cbn [fetch_more]. rewrite (proj2 (Z.eqb_eq _ _) E0), io_bind_run.
    unfold find_deals at 1.
    set (w1 := {| hubspot := hubspot w; calls := S (calls w);
                  rownumber_txt := rownumber_txt w;
                  log := log w ++ [Post "after" (len answer)] |}).
    destruct (IH (answer ++ hubspot w (calls w) "after" (len answer)) w1)
      as (w' & Hw' & Hcalls).
    { intros j Hj. simpl. rewrite <-fetched_shift. apply Hall. lia. }
    exists w'. split; [done|]. rewrite Hcalls. simpl. lia.
Qed.

Lemma main_fetch_unfold fuel w :
  main_fetch fuel w =
  fetch_more fuel (hubspot w (calls w) "limit" 100%Z)
    (len (hubspot w (calls w) "limit" 100%Z))
    {| hubspot := hubspot w; calls := S (calls w);
       rownumber_txt := rownumber_txt w;
       log := log w ++ [Post "limit" 100] |}.
Proof. reflexivity. Qed.

(** C10.  The retrieval of [main] requests a further page while the
    number of deals accumulated so far is a multiple of 100.  With [fuel]
    iterations allowed it returns exactly at the first accumulated number
    that is not a multiple of 100; it terminates if and only if some
    request makes the accumulated number not a multiple of 100; and when
    the first page has a multiple of 100 deals (none included) and every
    later request returns an empty page, no number of iterations ends it. *)
Theorem C10_retrieval_terminates_iff_partial_page w :
  let answer := fetched (hubspot w) (S (calls w))
                        (hubspot w (calls w) "limit" 100%Z) in
  (∀ fuel a,
     (main_fetch fuel w).1 = Ok (Some a) ↔
     ∃ k, (k ≤ fuel)%nat ∧ a = answer k ∧ (len (answer k) mod 100 ≠ 0)%Z ∧
          ∀ j, (j < k)%nat → (len (answer j) mod 100 = 0)%Z) ∧
  ((∃ fuel a, (main_fetch fuel w).1 = Ok (Some a)) ↔
   ∃ k, (len (answer k) mod 100 ≠ 0)%Z) ∧
  ((len (answer 0%nat) mod 100 = 0)%Z →
   (∀ n length, (calls w < n)%nat → hubspot w n "after" length = []) →
   ∀ fuel, (main_fetch fuel w).1 = Ok None).
Proof.
  intros answer.
  assert (∀ fuel a,
     (main_fetch fuel w).1 = Ok (Some a) ↔
     ∃ k, (k ≤ fuel)%nat ∧ a = answer k ∧ (len (answer k) mod 100 ≠ 0)%Z ∧
          ∀ j, (j < k)%nat → (len (answer j) mod 100 = 0)%Z) as Hiff.
  { intros fuel a. rewrite main_fetch_unfold.
    set (w1 := {| hubspot := hubspot w; calls := S (calls w);
                  rownumber_txt := rownumber_txt w;
                  log := log w ++ [Post "limit" 100] |}).
    set (first := hubspot w (calls w) "limit" 100%Z).
    split.
    - intros Hres.
      destruct (first_partial_page (λ j, len (answer j)) fuel)
        as [Hall | (k & Hk & Hstop & Hbefore)].
      + destruct (fetch_more_goes_on fuel first w1 Hall) as (w' & Hw' & _).
        by rewrite Hw' in Hres.
      + destruct (fetch_more_stops k fuel first w1 Hk Hbefore Hstop)
          as (w' & Hw' & _).
        rewrite Hw' in Hres. injection Hres as <-. by exists k.
    - intros (k & Hk & -> & Hstop & Hbefore).
      by destruct (fetch_more_stops k fuel first w1 Hk Hbefore Hstop)
        as (w' & -> & _). }
  split_and!; [done| |].
  - split.
    + intros (fuel & a & (k & _ & _ & Hstop & _)%Hiff). by exists k.
    + intros (k & Hstop).
      destruct (first_partial_page (λ j, len (answer j)) k)
        as [Hall | (k0 & Hk0 & Hstop0 & Hbefore)]; [by destruct Hstop; apply Hall|].
      exists k0, (answer k0). apply Hiff. by exists k0.
  - intros Hfirst Hempty fuel. rewrite main_fetch_unfold.
    set (w1 := {| hubspot := hubspot w; calls := S (calls w);
                  rownumber_txt := rownumber_txt w;
                  log := log w ++ [Post "limit" 100] |}).
    assert (∀ j, answer j = answer 0%nat) as Hsame.
    { clear Hiff Hfirst. induction j as [|j IH]; [done|].
      unfold answer in *. simpl. rewrite Hempty by lia. by rewrite app_nil_r. }
    destruct (fetch_more_goes_on fuel (hubspot w (calls w) "limit" 100%Z) w1)
      as (w' & -> & _); [|done].
    intros j _. change (len (answer j) mod 100 = 0)%Z. by rewrite Hsame.
Qed.

End Retrieval.

Section RetrievalSamples.
Import AllTime.

(** Against a CRM without deals the first page is empty, zero is a
    multiple of 100, and the loop does not end. *)
Lemma C10_retrieval_terminates_iff_partial_page_witness :
  (main_fetch 1000 (counter_at "2")).1 = Ok None.
Proof.
  apply (C10_retrieval_terminates_iff_partial_page (counter_at "2")).
  - reflexivity.
  - reflexivity.
Defined.

End RetrievalSamples.

(** * Further properties of the two scripts *)

(** ** The aggregation *)

Section Aggregation.
Context `{Syntax}.






(** The amounts of the deals of a loop that went through are numbers, and
    the total amount is their sum. *)
Lemma loop_amounts_exist key rate deals st st' :
  outcome (for_each (extract_step key rate) deals st) = Ok st' →
  ∃ amounts, Forall2 (λ d a, float (get d key) = Ok a) deals amounts ∧
             num_amounts st' = num_amounts st + total amounts.
Proof.
  revert st. induction deals as [|d deals IH]; intros st.
  - intros [= <-]. exists []. split; [constructor|]. simpl. ring.
  - rewrite for_each_cons_outcome.
    destruct (outcome (extract_step key rate st d)) as [st1|] eqn:E1; [|done].
    apply step_ok_inv in E1 as (a & n & Ha & _ & -> & _).
    intros (amounts & Hamounts & ->)%IH. exists (a :: amounts).
    split; [by constructor|]. simpl. ring.
Qed.

(** A deal that is not in NZD is processed as if there were no rate. *)
Lemma step_without_rate key rate st d :
  base_currency d → extract_step key rate st d = extract_step key None st d.
Proof. unfold base_currency, extract_step. by intros ->. Qed.

(** Without a rate the currency code is not looked at. *)
Lemma step_without_currency key st d currency :
  key ≠ "deal_currency_code" →
  extract_step key None st (with_currency currency d)
  = extract_step key None st d.
Proof.
  intros Hkey.
  assert (∀ k, k ≠ "deal_currency_code" → get (with_currency currency d) k = get d k)
    as Hget.
  { intros k Hk. unfold get, with_currency; simpl. by rewrite lookup_insert_ne. }
  unfold extract_step.
  rewrite (Hget "net_revenue"), (Hget "hs_object_id"), (Hget key)
    by first [done | discriminate].
  destruct (eq_str (get (with_currency currency d) _) _), (eq_str (get d _) _);
    reflexivity.
Qed.

Lemma for_each_ext {S A} (body body' : S → A → traced S) (l : list A) s :
  Forall (λ x, ∀ s, body s x = body' s x) l →
  for_each body l s = for_each body' l s.
Proof.
  intros Hl. revert s. induction Hl as [|x l Hx Hl IH]; intros s; [done|].
  cbn [for_each]. rewrite Hx. by apply bind_ext.
Qed.

Lemma for_each_fmap {S A B} (body : S → B → traced S) (f : A → B) l s :
  for_each body (f <$> l) s = for_each (λ s x, body s (f x)) l s.
Proof.
  revert s. induction l as [|x l IH]; intros s; [done|].
  cbn [for_each fmap list_fmap]. by apply bind_ext.
Qed.

(** A returned count is the number of deals. *)
Lemma financial_year_count_aux deals rate m n :
  outcome (FinancialYear.extract_data deals rate) = Ok (m, n) →
  deals ≠ [] ∧ n = length deals.
Proof.
  intros E. destruct deals as [|d deals]; [done|].
  destruct (outcome (loop "amount" rate (d :: deals))) as [st|e] eqn:El.
  - rewrite (financial_year_returns _ _ st) in E by done. by injection E as <- <-.
  - by rewrite (financial_year_raises _ _ e) in E.
Qed.

(** What the all-time script returns is consistent. *)
Lemma all_time_metrics_aux deals rate m n amount net cost :
  outcome (AllTime.extract_data deals rate) = Ok (m, n, amount, net, cost) →
  deals ≠ [] ∧ n = length deals ∧ amount ≠ 0 ∧
  m = net / amount * Q2Qc 100 ∧ cost = amount - net.
Proof.
  intros E. destruct deals as [|d deals]; [done|].
  destruct (outcome (loop "amount_in_home_currency" rate (d :: deals)))
    as [st|e] eqn:El.
  - rewrite (all_time_returns _ _ st) in E by done.
    injection E as <- <- <- <- <-.
    apply loop_ok_inv in El as [_ [Hnz _]]; done.
  - by rewrite (all_time_raises _ _ e) in E.
Qed.


End Aggregation.

Section AggregationProperties.
Context `{Syntax}.


(** X2.  What [extract_data] returns is consistent.  In the all-time script:
    there was a deal, the count is the number of deals, the amount is not
    zero, the margin is net revenue over amount times 100, and the cost is
    amount minus net revenue.  In the financial-year script: there was a
    deal and the count is the number of deals. *)
Theorem extract_data_metrics_consistent deals rate :
  (∀ m n amount net cost,
     outcome (AllTime.extract_data deals rate) = Ok (m, n, amount, net, cost) →
     deals ≠ [] ∧ n = length deals ∧ amount ≠ 0 ∧
     m = net / amount * Q2Qc 100 ∧ cost = amount - net) ∧
  (∀ m n,
     outcome (FinancialYear.extract_data deals rate) = Ok (m, n) →
     deals ≠ [] ∧ n = length deals).
Proof.
  split.
  - intros m n amount net cost. apply all_time_metrics_aux.
  - intros m n. apply financial_year_count_aux.
Qed.

(** X3.  The conversion touches the net revenue only: whenever [extract_data]
    of the all-time script returns, every deal's amount is a number and
    the returned amount is the sum of these numbers, whatever the
    currencies and the rate. *)
Theorem all_time_amount_is_sum_of_amounts deals rate m n amount net cost :
  outcome (AllTime.extract_data deals rate) = Ok (m, n, amount, net, cost) →
  ∃ amounts,
    Forall2 (λ d a, float (get d "amount_in_home_currency") = Ok a)
            deals amounts ∧
    amount = total amounts.
Proof.
  intros E. destruct deals as [|d deals]; [done|].
  destruct (outcome (loop "amount_in_home_currency" rate (d :: deals)))
    as [st|e] eqn:El.
  - rewrite (all_time_returns _ _ st) in E by done.
    injection E as <- <- <- <- <-.
    apply loop_amounts_exist in El as (amounts & Hamounts & ->).
    exists amounts. split; [done|]. simpl. ring.
  - by rewrite (all_time_raises _ _ e) in E.
Qed.

(** X4.  Without a deal in NZD the rate plays no part: [extract_data] does the
    same divisions and has the same outcome as without a rate. *)
Theorem rate_unused_without_nzd deals rate :
  Forall base_currency deals →
  FinancialYear.extract_data deals rate = FinancialYear.extract_data deals None ∧
  AllTime.extract_data deals rate = AllTime.extract_data deals None.
Proof.
  intros Hbase.
  assert (∀ key, loop key rate deals = loop key None deals) as Hloop.
  { intros key. apply for_each_ext. eapply Forall_impl; [done|].
    intros d Hd st. simpl. by apply step_without_rate. }
  split.
  - unfold FinancialYear.extract_data. fold (loop "amount" rate deals).
    fold (loop "amount" None deals). by rewrite Hloop.
  - unfold AllTime.extract_data. rewrite !all_time_loop.
    fold (loop "amount_in_home_currency" rate deals).
    fold (loop "amount_in_home_currency" None deals). by rewrite Hloop.
Qed.

(** X5.  Without a rate the currency codes play no part: replacing the currency
    code of every deal changes neither the divisions nor the outcome. *)
Theorem currency_unused_without_rate deals currency :
  FinancialYear.extract_data (with_currency currency <$> deals) None
    = FinancialYear.extract_data deals None ∧
  AllTime.extract_data (with_currency currency <$> deals) None
    = AllTime.extract_data deals None.
Proof.
  assert (∀ key, key ≠ "deal_currency_code" →
            loop key None (with_currency currency <$> deals)
            = loop key None deals) as Hloop.
  { intros key Hkey. unfold loop. rewrite for_each_fmap.
    apply for_each_ext, Forall_forall. intros d _ st.
    by apply step_without_currency. }
  split.
  - unfold FinancialYear.extract_data.
    fold (loop "amount" None (with_currency currency <$> deals)).
    fold (loop "amount" None deals). by rewrite Hloop.
  - unfold AllTime.extract_data. rewrite !all_time_loop.
    fold (loop "amount_in_home_currency" None (with_currency currency <$> deals)).
    fold (loop "amount_in_home_currency" None deals).
    rewrite Hloop by done.
    assert ((loop "amount_in_home_currency" None deals ≫= λ st',
               mret (st', cost_after (with_currency currency <$> deals) None st'))
            = (loop "amount_in_home_currency" None deals ≫= λ st',
                 mret (st', cost_after deals None st'))) as ->; [|done].
    apply bind_ext. intros st. by destruct deals.
Qed.

(** X6.  A deal whose amount is not a number stops the aggregation with the
    exception of [float]: TypeError when the amount is missing, ValueError
    when its text is not a number.  (The deal is not converted, and the
    deals before it have been processed.) *)
Theorem bad_amount_raises rate pre d rest e :
  base_currency d ∨ rate = None →
  (∀ st, outcome (loop "amount" rate pre) = Ok st →
         float (get d "amount") = Raise e →
         outcome (FinancialYear.extract_data (pre ++ d :: rest) rate) = Raise e) ∧
  (∀ st, outcome (loop "amount_in_home_currency" rate pre) = Ok st →
         float (get d "amount_in_home_currency") = Raise e →
         outcome (AllTime.extract_data (pre ++ d :: rest) rate) = Raise e).
Proof.
  intros Hplain.
  assert (∀ key st, outcome (loop key rate pre) = Ok st →
            float (get d key) = Raise e →
            outcome (loop key rate (pre ++ d :: rest)) = Raise e) as Hloop.
  { intros key st Hpre Ha. unfold loop in *.
    rewrite for_each_app, outcome_bind, Hpre, for_each_cons_outcome.
    by rewrite (step_plain_raises key rate st d e) by auto. }
  split; intros st Hpre Ha.
  - by eapply financial_year_raises, Hloop.
  - by eapply all_time_raises, Hloop.
Qed.

(** X7.  The aggregation of the all-time script extends the one of the
    financial-year script: on deals whose amount in the home currency is
    their amount, both do the same divisions, raise the same exception, or
    return the same margin and count. *)
Theorem all_time_extends_financial_year deals rate :
  Forall (λ d, get d "amount_in_home_currency" = get d "amount") deals →
  divisions (AllTime.extract_data deals rate)
    = divisions (FinancialYear.extract_data deals rate) ∧
  outcome (FinancialYear.extract_data deals rate) =
    match outcome (AllTime.extract_data deals rate) with
    | Ok (margin, dealcount, _, _, _) => Ok (margin, dealcount)
    | Raise e => Raise e
    end.
Proof.
  intros Hdeals.
  assert (loop "amount_in_home_currency" rate deals = loop "amount" rate deals)
    as Hloop.
  { apply for_each_ext. eapply Forall_impl; [done|].
    intros d Hd st. simpl in Hd. unfold extract_step. by rewrite Hd. }
  split.
  - by rewrite all_time_divisions, financial_year_divisions, Hloop.
  - destruct deals as [|d deals]; [done|].
    destruct (outcome (loop "amount" rate (d :: deals))) as [st|e] eqn:El.
    + rewrite (all_time_returns _ _ st) by (by rewrite ?Hloop).
      by rewrite (financial_year_returns _ _ st).
    + rewrite (all_time_raises _ _ e) by (by rewrite Hloop).
      by rewrite (financial_year_raises _ _ e).
Qed.

End AggregationProperties.

(** On one deal with amount 100 and net revenue 50. *)
Lemma extract_data_metrics_consistent_witness :
  [Sample.aud "100" (Some "50")] ≠ [] ∧ 1%nat = 1%nat ∧ Q2Qc 100 ≠ 0 ∧
  Q2Qc 50 = Q2Qc 50 / Q2Qc 100 * Q2Qc 100 ∧ Q2Qc 50 = Q2Qc 100 - Q2Qc 50.
Proof.
  apply (proj1 (extract_data_metrics_consistent
                  [Sample.aud "100" (Some "50")] None)).
  evaluate.
Defined.

(** On a deal in NZD converted at the rate 2 and a deal in AUD. *)
Lemma all_time_amount_is_sum_of_amounts_witness :
  ∃ amounts,
    Forall2 (λ d a, float (get d "amount_in_home_currency") = Ok a)
            [Sample.nzd "100" (Some "50"); Sample.aud "20" None] amounts ∧
    Q2Qc 120 = total amounts.
Proof.
  apply (all_time_amount_is_sum_of_amounts
           [Sample.nzd "100" (Some "50"); Sample.aud "20" None]
           (Some (Q2Qc 2)) (Q2Qc (225 # 6)) 2%nat (Q2Qc 120) (Q2Qc 45) (Q2Qc 75)).
  evaluate.
Defined.

(** On a deal in AUD and the rate 2. *)
Lemma rate_unused_without_nzd_witness :
  FinancialYear.extract_data [Sample.aud "100" (Some "50")] (Some (Q2Qc 2))
    = FinancialYear.extract_data [Sample.aud "100" (Some "50")] None ∧
  AllTime.extract_data [Sample.aud "100" (Some "50")] (Some (Q2Qc 2))
    = AllTime.extract_data [Sample.aud "100" (Some "50")] None.
Proof.
  apply (rate_unused_without_nzd [Sample.aud "100" (Some "50")] (Some (Q2Qc 2))).
  repeat (constructor; [vm_compute; reflexivity|]). constructor.
Defined.

(** On a deal without amount between two deals. *)
Lemma bad_amount_raises_witness :
  outcome (FinancialYear.extract_data
             ([Sample.aud "100" None] ++ deal_of [] :: [Sample.aud "5" None])
             None) = Raise TypeError.
Proof.
  destruct (bad_amount_raises (H:=Decimal.syntax) None [Sample.aud "100" None]
              (deal_of []) [Sample.aud "5" None] TypeError) as [Hfy _].
  - by right.
  - eapply Hfy; [vm_compute; reflexivity | reflexivity].
Defined.

(** On a deal with the same amount under both names. *)
Lemma all_time_extends_financial_year_witness :
  let deals := [deal_of [("amount", VStr "100");
                         ("amount_in_home_currency", VStr "100");
                         ("net_revenue", VStr "50")]] in
  divisions (AllTime.extract_data deals None)
    = divisions (FinancialYear.extract_data deals None) ∧
  outcome (FinancialYear.extract_data deals None) =
    match outcome (AllTime.extract_data deals None) with
    | Ok (margin, dealcount, _, _, _) => Ok (margin, dealcount)
    | Raise e => Raise e
    end.
Proof.
  intros deals.
  apply (all_time_extends_financial_year (H:=Decimal.syntax) deals None).
  repeat (constructor; [vm_compute; reflexivity|]). constructor.
Defined.

(** ** The orchestration of the financial-year script *)

Section Orchestration.
Import FinancialYear.
Context `{Syntax}.

Lemma requests_app es1 es2 : requests (es1 ++ es2) = requests es1 ++ requests es2.
Proof. apply omap_app. Qed.

Lemma requests_arith (ds : list arith) : requests (Arith <$> ds) = [].
Proof. by induction ds. Qed.

Lemma coordinates_arith (ds : list arith) : omap coordinates (Arith <$> ds) = [].
Proof. by induction ds. Qed.

(** What a cell does, whatever its outcome: two requests and no writing;
    on success one entry more in each list, the entry of [cell_entry]. *)
Lemma alltime_cell_spec rate start end_ margins totals stage_category w :
  ∃ w',
    alltime_cell rate start end_ (margins, totals) stage_category w =
      (match entry_at rate w 0 (start, end_, stage_category) with
       | Ok (margin, total) => Ok (margins ++ [margin], totals ++ [total])
       | Raise e => Raise e
       end, w') ∧
    hubspot w' = hubspot w ∧ calls w' = S (S (calls w)) ∧
    requests (log w') =
      requests (log w) ++ requests_of_cell (start, end_, stage_category) ∧
    omap coordinates (log w') = omap coordinates (log w).
Proof.
  unfold entry_at. rewrite Nat.add_0_r.
  unfold alltime_cell. rewrite io_bind_run. unfold find_deals at 1.
  rewrite io_bind_run. unfold find_deals at 1. cbn [calls hubspot log].
  set (deals := hubspot w (calls w) _).
  set (deals_after := hubspot w (S (calls w)) _).
  unfold cell_entry.
  destruct (deals ++ deals_after) as [|d all_deals] eqn:Hall.
  - eexists. split; [done|]. cbn [calls hubspot log].
    split_and!; [done..| |].
    + rewrite !requests_app. simpl. by rewrite <-app_assoc.
    + rewrite !omap_app. simpl. by rewrite !app_nil_r.
  - rewrite io_bind_run. unfold run.
    assert (length deals + length deals_after = length (d :: all_deals))%nat
      as Hlen by (by rewrite <-Hall, length_app).
    destruct (outcome (extract_data (d :: all_deals) rate))
      as [[margin total]|e] eqn:E.
    + eexists. split.
      * unfold mret, io_ret. do 4 f_equal.
        destruct (financial_year_count_aux _ _ _ _ E) as [_ ->]. by rewrite Hlen.
      * cbn [calls hubspot log record]. split_and!; [done..| |].
        -- rewrite !requests_app, requests_arith, app_nil_r. simpl.
           by rewrite <-app_assoc.
        -- rewrite !omap_app, coordinates_arith. simpl. by rewrite !app_nil_r.
    + eexists. split; [done|]. cbn [calls hubspot log record].
      split_and!; [done..| |].
      * rewrite !requests_app, requests_arith, app_nil_r. simpl.
        by rewrite <-app_assoc.
      * rewrite !omap_app, coordinates_arith. simpl. by rewrite !app_nil_r.
Qed.

(** An entry is aligned: NA twice, or a margin with a positive count. *)
Lemma cell_entry_aligned rate deals deals_after margin total :
  cell_entry rate deals deals_after = Ok (margin, total) → aligned margin total.
Proof.
  unfold cell_entry. destruct (deals ++ deals_after) as [|d all_deals] eqn:Hall.
  - intros [= <- <-]. by left.
  - destruct (outcome _) as [[m n]|e]; [|done]. intros [= <- <-]. right.
    exists m, (Z.of_nat (length deals + length deals_after)). split_and!; [done..|].
    apply (f_equal length) in Hall. rewrite length_app in Hall. simpl in Hall. lia.
Qed.

Lemma entry_at_shift rate w w' k cell :
  hubspot w' = hubspot w → calls w' = S (S (calls w)) →
  entry_at rate w' k cell = entry_at rate w (S k) cell.
Proof.
  intros Hh Hc. unfold entry_at. destruct cell as [[start end_] stage_category].
  rewrite Hh, Hc. by replace (S (S (calls w)) + 2 * k)%nat
    with (calls w + 2 * S k)%nat by lia.
Qed.

(** A run of cells that returns: the shape of what it returns. *)
Lemma cells_return rate cells margins totals w margins' totals' w' :
  for_each (cell_body rate) cells (margins, totals) w
    = (Ok (margins', totals'), w') →
  ∃ entries,
    margins' = margins ++ entries.*1 ∧ totals' = totals ++ entries.*2 ∧
    length entries = length cells ∧
    Forall (λ entry, aligned entry.1 entry.2) entries ∧
    (∀ k cell, cells !! k = Some cell →
       ∃ entry, entries !! k = Some entry ∧ entry_at rate w k cell = Ok entry) ∧
    hubspot w' = hubspot w ∧
    calls w' = (calls w + 2 * length cells)%nat ∧
    requests (log w') = requests (log w) ++ (cells ≫= requests_of_cell) ∧
    omap coordinates (log w') = omap coordinates (log w).
Proof.
  revert margins totals w.
  induction cells as [|[[start end_] stage_category] cells IH];
    intros margins totals w.
  - intros [= <- <- <-]. exists []. simpl. rewrite !app_nil_r.
    split_and!; try done; lia.
  - cbn [for_each]. rewrite io_bind_run. unfold cell_body at 1.
    destruct (alltime_cell_spec rate start end_ margins totals stage_category w)
      as (w1 & -> & Hh & Hc & Hr & Hu).
    destruct (entry_at rate w 0 _) as [[margin total]|e] eqn:E; [|done].
    intros (entries & -> & -> & Hlen & Hal & Hen & Hh' & Hc' & Hr' & Hu')%IH.
    exists ((margin, total) :: entries). simpl.
    rewrite <-!app_assoc. split_and!; try done.
    + by rewrite Hlen.
    + constructor; [|done]. unfold entry_at in E. by eapply cell_entry_aligned.
    + intros [|k] cell; simpl.
      * intros [= <-]. eauto.
      * intros Hk. destruct (Hen _ _ Hk) as (entry & ? & Hentry).
        exists entry. split; [done|]. by rewrite <-(entry_at_shift rate w w1).
    + congruence.
    + lia.
    + rewrite Hr', Hr. by rewrite <-app_assoc.
    + congruence.
Qed.

(** A run of cells whose first failing cell raises [e] raises [e], without
    a request for the cells after it and without writing. *)
Lemma cells_raise rate pre cell rest lists w e :
  (∀ k c, pre !! k = Some c → ∃ entry, entry_at rate w k c = Ok entry) →
  entry_at rate w (length pre) cell = Raise e →
  ∃ w', for_each (cell_body rate) (pre ++ cell :: rest) lists w = (Raise e, w') ∧
        calls w' = (calls w + 2 * S (length pre))%nat ∧
        omap coordinates (log w') = omap coordinates (log w).
Proof.
  revert lists w. induction pre as [|[[start end_] stage_category] pre IH];
    intros [margins totals] w Hpre Hcell.
  - destruct cell as [[start end_] stage_category].
    cbn [app for_each]. rewrite io_bind_run. unfold cell_body at 1.
    destruct (alltime_cell_spec rate start end_ margins totals stage_category w)
      as (w1 & -> & Hh & Hc & Hr & Hu).
    change (length []) with 0%nat in Hcell. rewrite Hcell.
    exists w1. split_and!; [done| |done].
    simpl. lia.
  - cbn [app for_each]. rewrite io_bind_run. unfold cell_body at 1.
    destruct (alltime_cell_spec rate start end_ margins totals stage_category w)
      as (w1 & -> & Hh & Hc & Hr & Hu).
    destruct (Hpre 0%nat _ eq_refl) as [[margin total] ->].
    destruct (IH (margins ++ [margin], totals ++ [total]) w1)
      as (w' & -> & Hc' & Hu').
    + intros k c Hk. rewrite (entry_at_shift rate w w1) by done.
      by apply (Hpre (S k)).
    + rewrite (entry_at_shift rate w w1) by done. exact Hcell.
    + exists w'. split_and!; [done| |congruence]. simpl. lia.
Qed.

Lemma alltime_cells deal_stage qs qe fs fe rate w :
  alltime deal_stage qs qe fs fe rate w =
  for_each (cell_body rate)
           (period_major [(qs, qe); (fs, fe)] deal_stage) ([], []) w.
Proof. apply alltime_period_major. Qed.

Lemma period_major_length {P C} (periods : list P) (categories : list C) :
  length (period_major periods categories)
  = (length periods * length categories)%nat.
Proof.
  induction periods as [|p periods IH]; [done|].
  rewrite period_major_cons, length_app, length_fmap, IH. simpl. lia.
Qed.

(** A run of cells all of whose entries exist returns. *)
Lemma cells_ok rate cells lists w :
  (∀ k c, cells !! k = Some c → ∃ entry, entry_at rate w k c = Ok entry) →
  ∃ lists' w', for_each (cell_body rate) cells lists w = (Ok lists', w').
Proof.
  revert lists w. induction cells as [|[[start end_] stage_category] cells IH];
    intros [margins totals] w Hcells.
  - by eexists _, _.
  - cbn [for_each]. rewrite io_bind_run. unfold cell_body at 1.
    destruct (alltime_cell_spec rate start end_ margins totals stage_category w)
      as (w1 & -> & Hh & Hc & Hr & Hu).
    destruct (Hcells 0%nat _ eq_refl) as [[margin total] ->].
    apply IH. intros k c Hk. rewrite (entry_at_shift rate w w1) by done.
    by apply (Hcells (S k)).
Qed.

Lemma aligned_entries (entries : list (pyval * pyval)) :
  Forall (λ entry, aligned entry.1 entry.2) entries →
  Forall2 aligned entries.*1 entries.*2.
Proof. induction 1; by constructor. Qed.

Lemma zip_entries (entries : list (pyval * pyval)) :
  zip entries.*1 entries.*2 = entries.
Proof. induction entries as [|[] ? IH]; [done|]. simpl. f_equal. exact IH. Qed.

Lemma coordinates_placed (results : list (pyval * pyval)) :
  length results = 6%nat →
  omap coordinates (imap placed results)
  = [(66, 2); (66, 3); (66, 4); (67, 2); (67, 3); (67, 4)]%Z.
Proof.
  intros Hlen. do 7 (destruct results as [|? results]; try done).
Qed.

(** Cells of a CRM without deals: NA twice, requests only. *)
Lemma cells_without_deals rate cells margins totals w :
  (∀ n q, hubspot w n q = []) →
  ∃ w', for_each (cell_body rate) cells (margins, totals) w =
          (Ok (margins ++ replicate (length cells) (VStr "NA"),
               totals ++ replicate (length cells) (VStr "NA")), w') ∧
        log w' = log w ++ (Post <$> (cells ≫= requests_of_cell)).
Proof.
  revert margins totals w.
  induction cells as [|[[start end_] stage_category] cells IH];
    intros margins totals w Hcrm.
  - exists w. simpl. by rewrite !app_nil_r.
  - cbn [for_each]. rewrite io_bind_run. unfold cell_body at 1.
    unfold alltime_cell, find_deals. rewrite !io_bind_run.
    cbn [calls hubspot log]. rewrite !Hcrm. cbn [app].
    unfold mret at 1, io_ret at 1.
    edestruct IH as (w' & -> & Hlog); [exact Hcrm|].
    exists w'. split.
    + cbn [length replicate]. by rewrite <-!app_assoc.
    + rewrite Hlog. cbn [log]. simpl. by rewrite <-!app_assoc.
Qed.

End Orchestration.

Section OrchestrationProperties.
Import FinancialYear.
Context `{Syntax}.

(** X8.  When [alltime] returns, the two lists have one entry for each period
    and stage category, an entry of the one is NA exactly where the entry
    of the other is, a margin otherwise comes with a positive count, and
    the CRM has been asked four times for each stage category: per cell
    with ["limit"] then with ["after"], the cells in period-major order. *)
Theorem alltime_returns_aligned_lists
    deal_stage qs qe fs fe rate w margins totals w' :
  alltime deal_stage qs qe fs fe rate w = (Ok (margins, totals), w') →
  length margins = (2 * length deal_stage)%nat ∧
  Forall2 aligned margins totals ∧
  calls w' = (calls w + 4 * length deal_stage)%nat ∧
  requests (log w') =
    requests (log w) ++
    (period_major [(qs, qe); (fs, fe)] deal_stage ≫= requests_of_cell).
Proof.
  rewrite alltime_cells.
  intros (entries & -> & -> & Hlen & Hal & _ & _ & Hc & Hr & _)%cells_return.
  rewrite period_major_length in Hlen, Hc. simpl in *.
  split_and!; [|by apply aligned_entries|lia|done].
  by rewrite length_fmap, Hlen.
Qed.

(** X9.  The two pages of a cell are put together as they come: when [alltime]
    returns, the count of a cell with deals is the length of the answer to
    its request with ["limit"] plus the length of the answer to its
    request with ["after"], a deal in both answers counting twice. *)
Theorem alltime_counts_both_pages
    deal_stage qs qe fs fe rate w margins totals w' k start end_ stage_category :
  let deals := hubspot w (calls w + 2 * k)
                 {| start_date := start; end_date := end_;
                    deal_stage := stage_category; page := "limit" |} in
  let deals_after := hubspot w (S (calls w + 2 * k))
                 {| start_date := start; end_date := end_;
                    deal_stage := stage_category; page := "after" |} in
  alltime deal_stage qs qe fs fe rate w = (Ok (margins, totals), w') →
  period_major [(qs, qe); (fs, fe)] deal_stage !! k
    = Some (start, end_, stage_category) →
  deals ++ deals_after ≠ [] →
  totals !! k = Some (VInt (Z.of_nat (length deals + length deals_after))).
Proof.
  intros deals deals_after. rewrite alltime_cells.
  intros (entries & _ & -> & _ & _ & Hen & _)%cells_return Hk Hdeals.
  destruct (Hen _ _ Hk) as ([margin total] & Hentry & E). simpl.
  rewrite list_lookup_fmap, Hentry. simpl. do 2 f_equal.
  unfold entry_at, cell_entry in E. fold deals deals_after in E.
  destruct (deals ++ deals_after); [done|].
  destruct (outcome _) as [[]|]; [|done]. by injection E as _ <-.
Qed.

(** X10.  A cell asks for two pages and no more: with a CRM that answers a
    request with at most 100 deals, no count that [alltime] returns
    exceeds 200, however many deals the period has. *)
Theorem alltime_counts_at_most_two_pages
    deal_stage qs qe fs fe rate w margins totals w' :
  (∀ n q, (length (hubspot w n q) ≤ 100)%nat) →
  alltime deal_stage qs qe fs fe rate w = (Ok (margins, totals), w') →
  Forall (λ total, ∀ n, total = VInt n → (n ≤ 200)%Z) totals.
Proof.
  intros Hcrm. rewrite alltime_cells.
  intros (entries & _ & -> & Hlen & _ & Hen & _)%cells_return.
  apply Forall_lookup. intros k total.
  rewrite app_nil_l, list_lookup_fmap.
  destruct (entries !! k) as [[margin total']|] eqn:Hk; [|done].
  intros [= <-] n Hn. simpl in Hn. subst total'.
  destruct (lookup_lt_is_Some_2 (period_major [(qs, qe); (fs, fe)] deal_stage) k)
    as [[[start end_] stage_category] Hcell].
  { rewrite <-Hlen. by eapply lookup_lt_Some. }
  destruct (Hen _ _ Hcell) as (entry & Hentry & E).
  rewrite Hk in Hentry. injection Hentry as <-.
  unfold entry_at, cell_entry in E.
  destruct (_ ++ _); [done|]. destruct (outcome _) as [[]|]; [|done].
  injection E as _ <-.
  pose proof (Hcrm (calls w + 2 * k)%nat
    {| start_date := start; end_date := end_;
       deal_stage := stage_category; page := "limit" |}).
  pose proof (Hcrm (S (calls w + 2 * k))
    {| start_date := start; end_date := end_;
       deal_stage := stage_category; page := "after" |}).
  simpl in *. lia.
Qed.

(** X11.  An exception in a cell is not caught: when the aggregation of a cell
    raises, the cells before it having been computed, [main] raises the
    same exception, asks nothing for the cells after it, and writes
    nothing to the sheet, the results of the cells before it included. *)
Theorem main_writes_nothing_when_a_cell_raises
    rate quarter year w pre cell rest e :
  period_major [quarter; year] stage_categories = pre ++ cell :: rest →
  (∀ k c, pre !! k = Some c → ∃ entry, entry_at rate w k c = Ok entry) →
  entry_at rate w (length pre) cell = Raise e →
  ∃ w', main rate quarter year w = (Raise e, w') ∧
        calls w' = (calls w + 2 * S (length pre))%nat ∧
        omap coordinates (log w') = omap coordinates (log w).
Proof.
  destruct quarter as [qs qe], year as [fs fe]. intros Hcells Hpre Hcell.
  destruct (cells_raise rate pre cell rest ([], []) w e Hpre Hcell)
    as (w' & E & Hc & Hu).
  exists w'. split; [|done].
  unfold main. rewrite io_bind_run. cbn [fst snd].
  change (alltime _ qs qe fs fe rate w)
    with (alltime stage_categories qs qe fs fe rate w).
  by rewrite alltime_cells, Hcells, E.
Qed.

(** X12.  When [main] returns, it has asked the CRM twelve times and then
    written six cells, each once: B2, B3, B4, C2, C3, C4, in this order
    (columns as the code point of their letter). *)
Theorem main_writes_six_cells rate quarter year w w' :
  main rate quarter year w = (Ok (), w') →
  calls w' = (calls w + 12)%nat ∧
  omap coordinates (log w') =
    omap coordinates (log w)
    ++ [(66, 2); (66, 3); (66, 4); (67, 2); (67, 3); (67, 4)]%Z.
Proof.
  destruct quarter as [qs qe], year as [fs fe].
  unfold main. rewrite io_bind_run. cbn [fst snd].
  change (alltime _ qs qe fs fe rate w)
    with (alltime stage_categories qs qe fs fe rate w).
  rewrite alltime_cells.
  destruct (for_each (M:=io world) _ _ _ w) as [[[margins totals]|e] w1] eqn:E; [|done].
  apply cells_return in E
    as (entries & -> & -> & Hlen & _ & _ & _ & Hc & _ & Hu).
  cbv beta iota. cbn [app]. rewrite io_bind_run. rewrite zip_entries.
  destruct (write_results_log entries 0 {| row := 2; col := 1; values_entered := 0 |} w1)
    as (c & -> & _); [done|].
  intros [= <-]. destruct w1 as [crm n es]. cbn [record calls log] in *.
  split; [by rewrite Hc|].
  rewrite omap_app, Hu. f_equal. by apply coordinates_placed.
Qed.

(** X13.  Against a CRM without any deal [main] returns: it asks its twelve
    requests, divides nothing, and writes NA to the six cells. *)
Theorem main_without_deals rate quarter year w :
  (∀ n q, hubspot w n q = []) →
  ∃ w', main rate quarter year w = (Ok (), w') ∧
        log w' =
          log w
          ++ (Post <$> (period_major [quarter; year] stage_categories
                        ≫= requests_of_cell))
          ++ [UpdateAcell 66 2 Na; UpdateAcell 66 3 Na; UpdateAcell 66 4 Na;
              UpdateAcell 67 2 Na; UpdateAcell 67 3 Na; UpdateAcell 67 4 Na].
Proof.
  intros Hcrm. destruct quarter as [qs qe], year as [fs fe].
  unfold main. rewrite io_bind_run. cbn [fst snd].
  change (alltime _ qs qe fs fe rate w)
    with (alltime stage_categories qs qe fs fe rate w).
  rewrite alltime_cells.
  destruct (cells_without_deals rate
              (period_major [(qs, qe); (fs, fe)] stage_categories) [] [] w Hcrm)
    as (w1 & -> & Hlog).
  cbv beta iota. rewrite io_bind_run.
  destruct (write_results_log
              (zip ([] ++ replicate 6 (VStr "NA")) ([] ++ replicate 6 (VStr "NA")))
              0 {| row := 2; col := 1; values_entered := 0 |} w1)
    as (c & E & _); [done|].
  change (length (period_major _ stage_categories)) with 6%nat.
  rewrite E. eexists. split; [reflexivity|].
  destruct w1 as [crm n es]. cbn [record log] in *. by rewrite Hlog, <-app_assoc.
Qed.

End OrchestrationProperties.

(** On one stage category and a CRM without deals. *)
Lemma alltime_returns_aligned_lists_witness :
  let w' := (FinancialYear.alltime [["won"]] "2026-10-01" "2026-12-31"
               "2026-07-01" "2027-06-30" None empty_crm).2 in
  length [VStr "NA"; VStr "NA"] = (2 * length [["won"]])%nat ∧
  Forall2 aligned [VStr "NA"; VStr "NA"] [VStr "NA"; VStr "NA"] ∧
  FinancialYear.calls w' =
    (FinancialYear.calls empty_crm + 4 * length [["won"]])%nat ∧
  requests (FinancialYear.log w') =
    requests (FinancialYear.log empty_crm) ++
    (period_major [("2026-10-01", "2026-12-31"); ("2026-07-01", "2027-06-30")]
                  [["won"]] ≫= requests_of_cell).
Proof.
  intros w'.
  apply (alltime_returns_aligned_lists (H:=Decimal.syntax)
           [["won"]] "2026-10-01" "2026-12-31" "2026-07-01" "2027-06-30" None
           empty_crm).
  vm_compute. reflexivity.
Defined.

(** On a CRM that answers both requests with the same deal. *)
Lemma alltime_counts_both_pages_witness :
  [VInt 2; VInt 2] !! 0%nat = Some (VInt (Z.of_nat (1 + 1))).
Proof.
  apply (alltime_counts_both_pages (H:=Decimal.syntax)
           [["won"]] "2026-10-01" "2026-12-31" "2026-07-01" "2027-06-30" None
           (constant_crm [Sample.aud "100" (Some "50")])
           [VFloat (Q2Qc 50); VFloat (Q2Qc 50)] [VInt 2; VInt 2]
           (FinancialYear.alltime [["won"]] "2026-10-01" "2026-12-31"
              "2026-07-01" "2027-06-30" None
              (constant_crm [Sample.aud "100" (Some "50")])).2
           0 "2026-10-01" "2026-12-31" ["won"]).
  - vm_compute. apply (f_equal2 pair); [|reflexivity].
    apply f_equal, (f_equal2 pair); [|reflexivity].
    apply (f_equal2 cons); [apply f_equal, Qc_eval; reflexivity|].
    apply (f_equal2 cons); [apply f_equal, Qc_eval; reflexivity|reflexivity].
  - vm_compute. reflexivity.
  - discriminate.
Defined.

(** On a CRM whose only deal has the amount 0. *)
Lemma main_writes_nothing_when_a_cell_raises_witness :
  ∃ w', FinancialYear.main None ("2026-10-01", "2026-12-31")
          ("2026-07-01", "2027-06-30") (constant_crm [Sample.aud "0" None])
        = (Raise ZeroDivisionError, w') ∧
        FinancialYear.calls w' = 2%nat ∧
        omap coordinates (FinancialYear.log w') = [].
Proof.
  apply (main_writes_nothing_when_a_cell_raises (H:=Decimal.syntax)
           None ("2026-10-01", "2026-12-31") ("2026-07-01", "2027-06-30")
           (constant_crm [Sample.aud "0" None]) []
           ("2026-10-01", "2026-12-31",
            ["123633772"; "848f19bf-930a-4f0f-bbc5-8d4b69d2cc3a"])
           (tail (period_major [("2026-10-01", "2026-12-31");
                                ("2026-07-01", "2027-06-30")] stage_categories))
           ZeroDivisionError).
  - vm_compute. reflexivity.
  - intros k c. by rewrite lookup_nil.
  - evaluate.
Defined.

(** On a CRM without deals. *)
Lemma main_writes_six_cells_witness :
  let w' := (FinancialYear.main None ("2026-10-01", "2026-12-31")
               ("2026-07-01", "2027-06-30") empty_crm).2 in
  FinancialYear.calls w' = 12%nat ∧
  omap coordinates (FinancialYear.log w')
  = [(66, 2); (66, 3); (66, 4); (67, 2); (67, 3); (67, 4)]%Z.
Proof.
  intros w'.
  apply (main_writes_six_cells (H:=Decimal.syntax) None
           ("2026-10-01", "2026-12-31") ("2026-07-01", "2027-06-30") empty_crm).
  vm_compute. reflexivity.
Defined.

(** On the quarter and the financial year of 3 November 2026. *)
Lemma main_without_deals_witness :
  ∃ w', FinancialYear.main None ("2026-10-01", "2026-12-31")
          ("2026-07-01", "2027-06-30") empty_crm = (Ok (), w') ∧
        FinancialYear.log w' =
          FinancialYear.log empty_crm
          ++ (FinancialYear.Post <$>
                (period_major [("2026-10-01", "2026-12-31");
                               ("2026-07-01", "2027-06-30")] stage_categories
                 ≫= requests_of_cell))
          ++ [FinancialYear.UpdateAcell 66 2 FinancialYear.Na;
              FinancialYear.UpdateAcell 66 3 FinancialYear.Na;
              FinancialYear.UpdateAcell 66 4 FinancialYear.Na;
              FinancialYear.UpdateAcell 67 2 FinancialYear.Na;
              FinancialYear.UpdateAcell 67 3 FinancialYear.Na;
              FinancialYear.UpdateAcell 67 4 FinancialYear.Na].
Proof.
  apply (main_without_deals (H:=Decimal.syntax) None
           ("2026-10-01", "2026-12-31") ("2026-07-01", "2027-06-30") empty_crm).
  done.
Defined.

(** On a CRM that answers every request with one deal. *)
Lemma alltime_counts_at_most_two_pages_witness :
  Forall (λ total, ∀ n, total = VInt n → (n ≤ 200)%Z) [VInt 2; VInt 2].
Proof.
  apply (alltime_counts_at_most_two_pages (H:=Decimal.syntax)
           [["won"]] "2026-10-01" "2026-12-31" "2026-07-01" "2027-06-30" None
           (constant_crm [Sample.aud "100" (Some "50")])
           [VFloat (Q2Qc 50); VFloat (Q2Qc 50)] [VInt 2; VInt 2]
           (FinancialYear.alltime [["won"]] "2026-10-01" "2026-12-31"
              "2026-07-01" "2027-06-30" None
              (constant_crm [Sample.aud "100" (Some "50")])).2).
  - intros n q. simpl. lia.
  - vm_compute. apply (f_equal2 pair); [|reflexivity].
    apply f_equal, (f_equal2 pair); [|reflexivity].
    apply (f_equal2 cons); [apply f_equal, Qc_eval; reflexivity|].
    apply (f_equal2 cons); [apply f_equal, Qc_eval; reflexivity|reflexivity].
Defined.

(** ** The periods of the financial-year script *)

Section Periods.
Import Datetime FinancialYear.

Lemma valid_inv (d : date) :
  valid d = true →
  (1 ≤ year d ≤ 9999 ∧ 1 ≤ month d ≤ 12 ∧
   1 ≤ day d ≤ days_in_month (year d) (month d))%Z.
Proof. unfold valid. rewrite !andb_true_iff, !Z.leb_le. lia. Qed.

Lemma months (m : Z) :
  (1 ≤ m ≤ 12)%Z →
  (m = 1 ∨ m = 2 ∨ m = 3 ∨ m = 4 ∨ m = 5 ∨ m = 6 ∨
   m = 7 ∨ m = 8 ∨ m = 9 ∨ m = 10 ∨ m = 11 ∨ m = 12)%Z.
Proof. lia. Qed.

Lemma datetime_first y m :
  (1 ≤ y ≤ 9999)%Z → (1 ≤ m ≤ 12)%Z →
  datetime y m 1 = inr {| year := y; month := m; day := 1 |}.
Proof.
  intros Hy Hm. unfold datetime, valid. cbn [year month day].
  assert (1 ≤ days_in_month y m)%Z
    by (unfold days_in_month; repeat case_match; lia).
  repeat (rewrite (proj2 (Z.leb_le _ _)) by lia). done.
Qed.

Lemma datetime_year_out_of_range y m d :
  ¬ (1 ≤ y ≤ 9999)%Z → datetime y m d = inl ValueError.
Proof.
  intros Hy. unfold datetime, valid. cbn [year month day].
  destruct (Z.leb_spec 1 y); [|done].
  destruct (Z.leb_spec y 9999); [lia|done].
Qed.

Lemma current_quarter_spec today :
  valid today = true →
  let m := ((month today - 1) / 3 * 3 + 1)%Z in
  (m ≤ month today ≤ m + 2)%Z ∧ (m = 1 ∨ m = 4 ∨ m = 7 ∨ m = 10)%Z ∧
  current_quarter today =
    if ((year today =? 9999) && (10 <=? month today))%Z then inl ValueError
    else inr ({| year := year today; month := m; day := 1 |},
              quarter_end (year today) m).
Proof.
  intros (Hy & Hm & Hd)%valid_inv m.
  assert (m ≤ month today ≤ m + 2)%Z as Hq
    by (unfold m; Z.div_mod_to_equations; lia).
  assert (m = 1 ∨ m = 4 ∨ m = 7 ∨ m = 10)%Z as Hcases
    by (unfold m; Z.div_mod_to_equations; lia).
  split_and!; [lia|lia|done|].
  unfold current_quarter. fold m. clearbody m.
  rewrite (datetime_first (year today) m) by lia.
  cbn [mbind error_bind].
  destruct (Z.ltb_spec m 10) as [Hlt|Hge].
  - rewrite (datetime_first (year today) (m + 3)) by lia.
    cbn [mbind error_bind].
    replace (_ && _) with false by (symmetry; apply andb_false_iff; right; apply Z.leb_gt; lia).
    unfold minus_one_day, quarter_end. cbn [year month day].
    rewrite Z.ltb_irrefl. rewrite (proj2 (Z.ltb_lt 1 (m + 3))) by lia.
    by replace (m + 3 - 1)%Z with (m + 2)%Z by lia.
  - assert (m = 10)%Z as Hm10 by lia.
    rewrite (proj2 (Z.leb_le 10 (month today))) by lia. rewrite andb_true_r.
    destruct (Z.eqb_spec (year today) 9999) as [E|E].
    + rewrite datetime_year_out_of_range by lia. done.
    + rewrite datetime_first by lia. cbn [mbind error_bind].
      unfold minus_one_day, quarter_end. cbn [year month day].
      rewrite Z.ltb_irrefl. rewrite (proj2 (Z.ltb_lt 1 (year today + 1))) by lia.
      rewrite Hm10. simpl. by replace (year today + 1 - 1)%Z with (year today) by lia.
Qed.

Lemma current_financial_year_spec today :
  valid today = true →
  let y := financial_year_of today in
  current_financial_year today =
    if ((y <? 1) || (9999 <? y + 1))%Z then inl ValueError
    else inr ({| year := y; month := 7; day := 1 |},
              {| year := y + 1; month := 6; day := 30 |}).
Proof.
  intros (Hy & Hm & Hd)%valid_inv. unfold financial_year_of, current_financial_year.
  destruct (Z.leb_spec 7 (month today)) as [H7|H7]; cbv zeta.
  - rewrite (datetime_first (year today) 7) by lia. cbn [mbind error_bind].
    rewrite (proj2 (Z.ltb_ge (year today) 1)) by lia. rewrite orb_false_l.
    destruct (Z.ltb_spec 9999 (year today + 1)).
    + rewrite datetime_year_out_of_range by lia. done.
    + unfold datetime, valid. cbn [year month day].
      repeat (rewrite (proj2 (Z.leb_le _ _)) by (try done; lia)). done.
  - destruct (Z.ltb_spec (year today - 1) 1).
    + rewrite (datetime_year_out_of_range (year today - 1)) by lia. done.
    + rewrite (datetime_first (year today - 1) 7) by lia. cbn [mbind error_bind].
      rewrite (proj2 (Z.ltb_ge 9999 (year today - 1 + 1))) by lia.
      replace (year today - 1 + 1)%Z with (year today) by lia.
      unfold datetime, valid. cbn [year month day].
      repeat (rewrite (proj2 (Z.leb_le _ _)) by (try done; lia)). done.
Qed.

End Periods.

Section PeriodProperties.
Import Datetime FinancialYear.



(** X16.  The quarter of a day lies within the financial year of that day. *)
Theorem quarter_within_financial_year today qs qe fs fe :
  valid today = true →
  current_quarter today = inr (qs, qe) →
  current_financial_year today = inr (fs, fe) →
  le fs qs ∧ le qe fe.
Proof.
  intros Hv.
  destruct (current_quarter_spec today Hv) as (Hq & Hcases & ->).
  rewrite (current_financial_year_spec today Hv).
  apply valid_inv in Hv as (Hy & Hm & Hd).
  destruct (_ && _); [done|]. destruct (_ || _); [done|].
  intros [= <- <-] [= <- <-].
  unfold le, quarter_end, financial_year_of, days_in_month.
  cbn [year month day].
  destruct (Z.leb_spec 7 (month today));
    destruct Hcases as [E|[E|[E|E]]]; rewrite E in *; simpl; lia.
Qed.

End PeriodProperties.



(** On 3 November 2026. *)
Lemma quarter_within_financial_year_witness :
  Datetime.le {| Datetime.year := 2026; Datetime.month := 7; Datetime.day := 1 |}
              {| Datetime.year := 2026; Datetime.month := 10; Datetime.day := 1 |} ∧
  Datetime.le {| Datetime.year := 2026; Datetime.month := 12; Datetime.day := 31 |}
              {| Datetime.year := 2027; Datetime.month := 6; Datetime.day := 30 |}.
Proof.
  exact (quarter_within_financial_year
           {| Datetime.year := 2026; Datetime.month := 11; Datetime.day := 3 |}
           _ _ _ _ eq_refl eq_refl eq_refl).
Defined.

(** ** The all-time script: retrieval, allocation and writing *)

Section AllTimeRun.
Import AllTime.
Context `{Syntax}.






End AllTimeRun.

Section AllTimeProperties.
Import AllTime.
Context `{Syntax}.


(** X18.  With the counter beyond the extent of the sheet the allocator reports
    the sheet full without reading a cell, and still advances the
    counter. *)
Theorem cursor_past_the_sheet ws w text c :
  rownumber_txt w = Some text → int_of_str text = Some c →
  (row_count ws < c)%Z →
  get_next_open_row ws w =
    (Ok None,
     {| hubspot := hubspot w; calls := calls w;
        rownumber_txt := Some (str_of_int (c + 1));
        log := log w ++ [FileRead; FileWrite (str_of_int (c + 1))] |}).
Proof.
  intros Hfile Hint Hc.
  destruct (get_next_open_row_spec ws w text c) as (r & k & -> & Hr); [done..|].
  destruct r as [row|].
  - lia.
  - destruct Hr as [_ ->]. by rewrite Z.max_l by lia.
Qed.

(** X19.  The allocator reserves nothing and looks at the counter only.  When
    it has returned a row beyond the counter, the next call returns the
    same row again as long as the row is empty; when it has returned the
    row of the counter itself, no later call returns that row, whether or
    not it has been written. *)
Theorem allocation_is_not_a_reservation `{!LawfulSyntax} ws w text c row w1 :
  rownumber_txt w = Some text → int_of_str text = Some c →
  get_next_open_row ws w = (Ok (Some row), w1) →
  ∃ r2 w2,
    get_next_open_row ws w1 = (Ok r2, w2) ∧
    ((c < row)%Z → r2 = Some row) ∧
    (row = c → ∀ row2, r2 = Some row2 → (row < row2)%Z).
Proof.
  intros Hfile Hint.
  destruct (get_next_open_row_spec ws w text c) as (r1 & k1 & -> & Hr1); [done..|].
  intros [= E <-]. subst r1. destruct Hr1 as (Hrow & Hempty & Hfull & _).
  match goal with |- context [get_next_open_row ws ?w'] => set (w1 := w') end.
  destruct (get_next_open_row_spec ws w1 (str_of_int (c + 1)) (c + 1))
    as (r2 & k2 & -> & Hr2); [done|apply int_of_str_of_int|].
  eexists r2, _. split_and!; [done| |].
  - intros Hlt. destruct r2 as [row2|].
    + destruct Hr2 as (Hrow2 & Hempty2 & Hfull2 & _). f_equal.
      destruct (Z.lt_trichotomy row2 row) as [Hc|[Hc|Hc]]; [|done|].
      * destruct (Hfull row2) as [? E]; [lia|]. by rewrite Hempty2 in E.
      * destruct (Hfull2 row) as [? E]; [lia|]. by rewrite Hempty in E.
    + destruct Hr2 as [Hfull2 _].
      destruct (Hfull2 row) as [? E]; [lia|]. by rewrite Hempty in E.
  - intros -> row2 ->. lia.
Qed.

(** X20.  [write_data_to_sheet] updates one cell for each value, in the order of
    the values: the i-th value (from 0) goes to the given row in the
    column [chr(65 + i)]. *)
Theorem write_data_to_sheet_places_in_order {V} (data : list V) (row : Z) :
  write_data_to_sheet data row
  = imap (λ i value, (65 + Z.of_nat i, row, value)%Z) data.
Proof.
  unfold write_data_to_sheet.
  match goal with |- (foldl ?f _ _).2 = _ => set (step := f) end.
  assert (∀ (k : nat) updates,
    foldl step (Z.of_nat k, updates) data
    = (Z.of_nat (k + length data),
       updates ++ imap (λ i value, (65 + Z.of_nat (k + i), row, value)%Z) data))
    as Hfold.
  { induction data as [|value data IH]; intros k updates.
    - simpl. by rewrite Nat.add_0_r, app_nil_r.
    - cbn [foldl]. unfold step at 2. cbv zeta.
      replace (Z.of_nat k + 1)%Z with (Z.of_nat (S k)) by lia.
      rewrite IH, <-app_assoc. cbn [length imap app].
      rewrite Nat.add_0_r. f_equal; [f_equal; lia|]. do 2 f_equal.
      apply imap_ext. intros i x _. simpl. do 3 f_equal. lia. }
  change 0%Z with (Z.of_nat 0). by rewrite (Hfold 0%nat []).
Qed.



End AllTimeProperties.

(** On the counter 6 on a sheet of five rows. *)
Lemma cursor_past_the_sheet_witness :
  AllTime.get_next_open_row sample_sheet (counter_at "6") =
    (Ok None,
     {| AllTime.hubspot := AllTime.hubspot (counter_at "6");
        AllTime.calls := AllTime.calls (counter_at "6");
        AllTime.rownumber_txt := Some (str_of_int (6 + 1));
        AllTime.log := AllTime.log (counter_at "6")
                       ++ [AllTime.FileRead;
                           AllTime.FileWrite (str_of_int (6 + 1))] |}).
Proof.
  apply (cursor_past_the_sheet (H:=Decimal.syntax) sample_sheet
           (counter_at "6") "6" 6); [reflexivity|reflexivity|].
  unfold sample_sheet. simpl. lia.
Defined.

(** On the counter 2 on a sheet whose first empty row is 4. *)
Lemma allocation_is_not_a_reservation_witness :
  ∃ r2 w2,
    AllTime.get_next_open_row sample_sheet
      (AllTime.get_next_open_row sample_sheet (counter_at "2")).2 = (Ok r2, w2) ∧
    ((2 < 4)%Z → r2 = Some 4%Z) ∧
    (4%Z = 2%Z → ∀ row2, r2 = Some row2 → (4 < row2)%Z).
Proof.
  apply (allocation_is_not_a_reservation (H:=Decimal.syntax) sample_sheet
           (counter_at "2") "2" 2 4); [reflexivity|reflexivity|].
  vm_compute. reflexivity.
Defined.


